(** * CellCarto-3DEEP data preparation scripts: a shallow embedding

    Two batch scripts are modelled:
    - [split_data.py]: splits a gzipped delimited text file into [n_files]
      header-preserving gzipped parts (module [SplitData]);
    - [convert_to_parquet.py]: narrows column types, shuffles the rows with a
      seeded generator and writes contiguous shards (module
      [ConvertToParquet]).

    Python integers are [Z]; [//] and [%] are [Z.div] and [Z.modulo] (both
    round towards minus infinity, as Python does), with the division by zero
    written out where the code can reach it.  Python lists are [list] and
    their slices [Py.slice]; dictionaries are [gmap].  What the interpreter
    and its libraries compute (integer parsing, gzip, UTF-8 decoding,
    float formatting, NumPy's generator, casts between column types) enters
    as section variables, and so does what the file system decides beyond
    its regular files (a directory or a write it refuses); module [Sample]
    supplies small stand-ins so that the definitions can be run.  The loader and the Parquet encoder of
    [convert_to_parquet.py] are not modelled. *)

From Stdlib Require Import ZArith Ascii String List Permutation Lia.
From stdpp Require Import base numbers option list strings pretty sorting gmap.

Local Open Scope Z_scope.

(** ** Python built-ins used by both scripts *)
Module Py.

(** [len(l)] *)
Definition len {A} (l : list A) : Z := Z.of_nat (length l).

(** [range(n)]: empty when [n <= 0]. *)
Definition range (n : Z) : list Z := map Z.of_nat (seq 0 (Z.to_nat n)).

(** Slice bound normalisation of [l[start:stop]]: a negative bound counts
    from the end, and every bound is clamped to [0, len]. *)
Definition clamp (n i : Z) : Z :=
  if i <? 0 then Z.max (i + n) 0 else Z.min i n.

(** [l[start:stop]] (step 1). *)
Definition slice {A} (l : list A) (start stop : Z) : list A :=
  let n := len l in
  let s := clamp n start in
  let e := clamp n stop in
  take (Z.to_nat (e - s)) (drop (Z.to_nat s) l).

(** [l[start:]] *)
Definition slice_from {A} (l : list A) (start : Z) : list A :=
  drop (Z.to_nat (clamp (len l) start)) l.

End Py.

(** ** Strings: the [str] methods and [os.path] functions the splitter calls *)
Module Str.

Local Open Scope string_scope.

(** [s[:k]] and [s[k:]] for [0 <= k]. *)
Definition take (k : nat) (s : string) : string := substring 0 k s.
Definition drop (k : nat) (s : string) : string :=
  substring k (String.length s - k) s.

(** [s.endswith(suf)] *)
Definition endswith (s suf : string) : bool :=
  (String.length suf <=? String.length s)%nat
  && String.eqb (drop (String.length s - String.length suf) s) suf.

(** [s[:-k]] for [0 < k]: empty when [s] is shorter than [k]. *)
Definition drop_end (k : nat) (s : string) : string :=
  take (String.length s - k) s.

(** [arg.split(c, 1)] when [c in arg]: the text before and after the first
    occurrence of [c]; [None] when [c] does not occur. *)
Fixpoint split_once (c : ascii) (s : string) : option (string * string) :=
  match s with
  | EmptyString => None
  | String a s' =>
      if Ascii.eqb a c then Some (EmptyString, s')
      else match split_once c s' with
           | Some (k, v) => Some (String a k, v)
           | None => None
           end
  end.

(** [s.rfind(c)]: index of the last occurrence, [-1] when there is none. *)
Fixpoint rfind_from (c : ascii) (s : string) (i acc : Z) : Z :=
  match s with
  | EmptyString => acc
  | String a s' => rfind_from c s' (i + 1) (if Ascii.eqb a c then i else acc)
  end.
Definition rfind (c : ascii) (s : string) : Z := rfind_from c s 0 (-1).

(** [all(ch == c for ch in s)] *)
Fixpoint all_char (c : ascii) (s : string) : bool :=
  match s with
  | EmptyString => true
  | String a s' => Ascii.eqb a c && all_char c s'
  end.

(** [posixpath.basename(p)] *)
Definition basename (p : string) : string :=
  drop (Z.to_nat (rfind "/" p + 1)) p.

(** [posixpath.splitext(p)]: the extension starts at the last dot of the
    last path component, unless that component has only dots before it. *)
Definition splitext (p : string) : string * string :=
  let sepIndex := rfind "/" p in
  let dotIndex := rfind "." p in
  let filenameIndex := Z.to_nat (sepIndex + 1) in
  if (sepIndex <? dotIndex)%Z
     && negb (all_char "." (substring filenameIndex
                              (Z.to_nat dotIndex - filenameIndex) p))
  then (take (Z.to_nat dotIndex) p, drop (Z.to_nat dotIndex) p)
  else (p, "").

(** [s.rstrip(c)] *)
Fixpoint rstrip (c : ascii) (s : string) : string :=
  match s with
  | EmptyString => EmptyString
  | String a s' =>
      match rstrip c s' with
      | EmptyString =>
          if Ascii.eqb a c then EmptyString else String a EmptyString
      | r => String a r
      end
  end.

(** [posixpath.dirname(p)] *)
Definition dirname (p : string) : string :=
  let head := take (Z.to_nat (rfind "/" p + 1)) p in
  if negb (String.eqb head "") && negb (all_char "/" head)
  then rstrip "/" head else head.

(** [f"{n:02d}"]: decimal, zero-padded on the left to width two. *)
Definition fmt_02d (n : Z) : string :=
  let s := pretty n in
  if (String.length s <? 2)%nat then "0" ++ s else s.

(** [f"{n:,}"]: decimal with a comma between groups of three digits. *)
Fixpoint group3 (ds : list ascii) (k : nat) : list ascii :=
  match ds with
  | [] => []
  | d :: ds' =>
      if (k =? 3)%nat then ","%char :: d :: group3 ds' 1
      else d :: group3 ds' (S k)
  end.
Definition fmt_comma (n : Z) : string :=
  let digits := list_ascii_of_string (pretty (Z.abs n)) in
  let grouped := string_of_list_ascii (rev (group3 (rev digits) 0)) in
  if (n <? 0)%Z then "-" ++ grouped else grouped.

End Str.

(** ** The process model shared by the scripts' entry points

    A run starts from a [world] (the regular files reachable by path and the
    lines printed so far) and ends by returning, by [sys.exit(code)] or with
    an uncaught exception.  The world holds regular files only: what else
    makes the creation of a directory or a write fail (directories,
    permissions, the disk) is handed to these two operations as a
    parameter. *)
Module Proc.

(** The exception classes a run can end with. *)
Inductive exn :=
| FileNotFoundError   (* [open] of a path that is not a file *)
| FileExistsError
| NotADirectoryError
| IsADirectoryError
| PermissionError
| OSError             (* any other [OSError] *)
| BadGzipFile
| EOFError
| ZlibError           (* [zlib.error] *)
| OtherError (class_name : string).

Inductive outcome (A : Type) :=
| Done (a : A)
| Exited (code : Z)
| Raised (e : exn).
Arguments Done {A} a.
Arguments Exited {A} code.
Arguments Raised {A} e.

Record world := World {
  files : gmap string (list Byte.byte);
  stdout : list string
}.

Definition M (A : Type) : Type := world -> outcome A * world.

Definition ret {A} (a : A) : M A := fun w => (Done a, w).

Definition bind {A B} (m : M A) (k : A -> M B) : M B :=
  fun w =>
    match m w with
    | (Done a, w') => k a w'
    | (Exited c, w') => (Exited c, w')
    | (Raised e, w') => (Raised e, w')
    end.

(** [print(s)] *)
Definition print (s : string) : M unit :=
  fun w => (Done tt, World (files w) (stdout w ++ [s])).

(** [sys.exit(code)] *)
Definition sys_exit {A} (code : Z) : M A := fun w => (Exited code, w).

Definition raise {A} (e : exn) : M A := fun w => (Raised e, w).

(** [os.path.exists(path)] *)
Definition path_exists (path : string) : M bool :=
  fun w => (Done (bool_decide (is_Some (files w !! path))), w).

(** [open(path, 'rb').read()] *)
Definition read_bytes (path : string) : M (list Byte.byte) :=
  fun w =>
    match files w !! path with
    | Some data => (Done data, w)
    | None => (Raised FileNotFoundError, w)
    end.

(** Creating or truncating [path] and writing [data] to it. *)
Definition write_bytes (path : string) (data : list Byte.byte) : M unit :=
  fun w => (Done tt, World (<[path := data]> (files w)) (stdout w)).

(** The directories above [path]: its [dirname], the [dirname] of that,
    and so on up to the root or the current directory. *)
Fixpoint parents (fuel : nat) (path : string) : list string :=
  match fuel with
  | O => []
  | S fuel' =>
      let dir := Str.dirname path in
      if String.eqb dir path || String.eqb dir "" then []
      else dir :: parents fuel' dir
  end.

(** What [os.makedirs(path, exist_ok=True)] raises, if anything:
    [refused fs path] is the exception the rest of the file system causes
    ([None] when it causes none); when it causes none, a regular file at
    [path] makes the call raise [FileExistsError] and a regular file at a
    directory above [path] makes it raise [NotADirectoryError]. *)
Definition makedirs_error
    (refused : gmap string (list Byte.byte) -> string -> option exn)
    (fs : gmap string (list Byte.byte)) (path : string) : option exn :=
  match refused fs path with
  | Some e => Some e
  | None =>
      match fs !! path with
      | Some _ => Some FileExistsError
      | None =>
          if existsb (fun dir => bool_decide (is_Some (fs !! dir)))
               (parents (String.length path) path)
          then Some NotADirectoryError
          else None
      end
  end.

(** [os.makedirs(path, exist_ok=True)]: the regular files stay as they
    are. *)
Definition makedirs
    (refused : gmap string (list Byte.byte) -> string -> option exn)
    (path : string) : M unit :=
  fun w =>
    match makedirs_error refused (files w) path with
    | Some e => (Raised e, w)
    | None => (Done tt, w)
    end.

(** Opening [path] for writing, writing [data] and closing.  A failure is
    decided outside the world: [failure fs path data] is the exception
    raised together with what the failed attempt leaves at [path]
    ([None] when the file was not opened, otherwise the bytes that got
    written), and [None] when the write goes through. *)
Definition write_file
    (failure : gmap string (list Byte.byte) -> string -> list Byte.byte
               -> option (exn * option (list Byte.byte)))
    (path : string) (data : list Byte.byte) : M unit :=
  fun w =>
    match failure (files w) path data with
    | Some (e, Some partial) =>
        (Raised e, World (<[path := partial]> (files w)) (stdout w))
    | Some (e, None) => (Raised e, w)
    | None => write_bytes path data w
    end.

(** [os.path.getsize(path)] *)
Definition getsize (path : string) : M Z :=
  fun w =>
    match files w !! path with
    | Some data => (Done (Py.len data), w)
    | None => (Raised FileNotFoundError, w)
    end.

(** A [for] loop whose body threads an accumulator. *)
Fixpoint for_each {A B} (xs : list A) (acc : B) (body : B -> A -> M B) : M B :=
  match xs with
  | [] => ret acc
  | x :: xs' => bind (body acc x) (fun acc' => for_each xs' acc' body)
  end.

(** [if cond: body] as a statement. *)
Definition when (cond : bool) (body : M unit) : M unit :=
  if cond then body else ret tt.

Declare Scope prog_scope.
Delimit Scope prog_scope with prog.
Notation "x <- m ;; k" := (bind m (fun x => k))
  (at level 100, m at next level, right associativity) : prog_scope.
Notation "m ;; k" := (bind m (fun _ => k))
  (at level 100, right associativity) : prog_scope.

End Proc.

(** ** [split_data.py] *)
Module SplitData.

Import Proc.

(** Decoded text is a sequence of Unicode code points; a line keeps its
    line ending. *)
Abbreviation text := (list N).

Definition LF : N := 10%N.
Definition CR : N := 13%N.

(** The line boundaries of [str.splitlines]: LF, VT, FF, CR, FS, GS, RS,
    NEL, LS and PS (CR LF counts as one boundary). *)
Definition is_linebreak (c : N) : bool :=
  bool_decide (c ∈ [10; 11; 12; 13; 28; 29; 30; 133; 8232; 8233]%N).

(** [text.splitlines(keepends=True)], with the current line in [cur]. *)
Fixpoint splitlines_from (cur : text) (t : text) : list text :=
  match t with
  | [] => match cur with [] => [] | _ => [cur] end
  | c :: t' =>
      if is_linebreak c then
        match t' with
        | c' :: t'' =>
            if (c =? CR)%N && (c' =? LF)%N
            then (cur ++ [c; c']) :: splitlines_from [] t''
            else (cur ++ [c]) :: splitlines_from [] t'
        | [] => [cur ++ [c]]
        end
      else splitlines_from (cur ++ [c]) t'
  end.
Definition splitlines (t : text) : list text := splitlines_from [] t.

(** [line.endswith('\n')] *)
Definition endswith_newline (l : text) : bool :=
  match last l with
  | Some c => (c =? LF)%N
  | None => false
  end.

(** [1 if i < remainder else 0] and the body of the partitioning loop of
    [main]: the state is [(parts, start_idx)]. *)
Definition part_size (lines_per_part remainder i : Z) : Z :=
  lines_per_part + (if i <? remainder then 1 else 0)%Z.

Definition split_step (header : text) (data_lines : list text)
    (lines_per_part remainder : Z)
    (st : list (list text) * Z) (i : Z) : list (list text) * Z :=
  let '(parts, start_idx) := st in
  let end_idx := (start_idx + part_size lines_per_part remainder i)%Z in
  let part_lines := header :: Py.slice data_lines start_idx end_idx in
  (parts ++ [part_lines], end_idx).

(** Lines 128-150 of [main]: header, data lines, and the [n_files] parts.
    [main] gets here with at least one line and [n_files >= 1]. *)
Definition split_lines (lines : list text) (n_files : Z) : list (list text) :=
  let header := default [] (head lines) in
  let data_lines := Py.slice_from lines 1 in
  let lines_per_part := (Py.len data_lines / n_files)%Z in
  let remainder := (Py.len data_lines mod n_files)%Z in
  fst (fold_left (split_step header data_lines lines_per_part remainder)
         (Py.range n_files) ([], 0%Z)).

(** [enumerate(xs, 1)] *)
Definition enumerate1 {A} (xs : list A) : list (Z * A) :=
  imap (fun i x => (Z.of_nat i + 1, x)%Z) xs.

Local Open Scope string_scope.

(** [dict.get(key)] followed by a truth test: a missing key and an empty
    string are both falsy. *)
Definition truthy (v : option string) : bool :=
  match v with
  | Some s => negb (String.eqb s "")
  | None => false
  end.

Definition usage : string :=
  "Usage: python split_data.py input_file=path/to/file output_path=path/ n_files=10".

Definition NL : string := String "010"%char "".

Definition MAX_SIZE_MB : Z := 100.

(** [parse_arguments]: [key=value] arguments after the program name; a later
    occurrence of a key replaces an earlier one. *)
Definition parse_arguments (argv : list string) : M (gmap string string) :=
  for_each (drop 1 argv) (∅ : gmap string string) (fun args arg =>
    match Str.split_once "=" arg with
    | Some (key, value) => ret (<[key := value]> args)
    | None =>
        (print ("Warning: Ignoring argument '" ++ arg
                ++ "' (expected format: key=value)") ;;
         ret args)%prog
    end).

(** [get_file_extension] *)
Definition get_file_extension (filename : string) : string :=
  if Str.endswith filename ".gz" then
    let base := Str.drop_end 3 filename in
    snd (Str.splitext base) ++ ".gz"
  else snd (Str.splitext filename).

(** [get_base_filename] *)
Definition get_base_filename (filename : string) : string :=
  let basename := Str.basename filename in
  let basename :=
    if Str.endswith basename ".gz" then Str.drop_end 3 basename else basename in
  fst (Str.splitext basename).

(** *** The effectful part, over the run-time library

    What the interpreter and its [gzip] module compute is taken as given:
    - [int_of_str s] is [int(s)]: the integer, or the message of the
      [ValueError];
    - [gzip_decompress] is [gzip.decompress], [None] when it raises, and
      [gzipfile_read] the [GzipFile(...).read()] fallback, with the
      exception it raises when it does;
    - [utf8_decode] is [bytes.decode('utf-8', errors='replace')];
    - [gzip_write path lines] is the content of the file produced by
      [gzip.open(path, 'wt', encoding='utf-8')] and [writelines(lines)];
    - [fmt_mb size] is [f"{size / (1024 * 1024):.2f}"] and [fmt_avg_mb sizes]
      the same format of the mean of the sizes in MB;
    - [makedirs_refused] and [write_failure] are the failures of
      [os.makedirs] and of writing a part that the file system beyond the
      regular files decides (see [Proc.makedirs_error] and
      [Proc.write_file]). *)
Section Main.

Variable int_of_str : string -> Z + string.
Variable gzip_decompress : list Byte.byte -> option (list Byte.byte).
Variable gzipfile_read : list Byte.byte -> list Byte.byte + exn.
Variable utf8_decode : list Byte.byte -> text.
Variable gzip_write : string -> list text -> list Byte.byte.
Variable fmt_mb : Z -> string.
Variable fmt_avg_mb : list Z -> string.
Variable makedirs_refused :
  gmap string (list Byte.byte) -> string -> option exn.
Variable write_failure :
  gmap string (list Byte.byte) -> string -> list Byte.byte
  -> option (exn * option (list Byte.byte)).

(** The [try]/[except] of [read_file_lines]: [gzip.decompress], and
    [GzipFile.read] when that raises; the exception of the fallback when
    it raises too. *)
Definition gunzip (compressed_data : list Byte.byte)
  : list Byte.byte + exn :=
  match gzip_decompress compressed_data with
  | Some decompressed_data => inl decompressed_data
  | None => gzipfile_read compressed_data
  end.

(** Lines 67-69: [lines[-1] = lines[-1] + '\n'] when the last line lacks it. *)
Definition ensure_final_newline (lines : list text) : list text :=
  match last lines with
  | Some l =>
      if endswith_newline l then lines
      else <[pred (length lines) := (l ++ [LF])%list]> lines
  | None => lines
  end.

(** [read_file_lines] *)
Definition read_file_lines (filepath : string) : M (list text) :=
  (compressed_data <- read_bytes filepath ;;
   decompressed_data <- match gunzip compressed_data with
                        | inl data => ret data
                        | inr e => raise e
                        end ;;
   let text := utf8_decode decompressed_data in
   let lines := splitlines text in
   ret (ensure_final_newline lines))%prog.

(** Lines 106-107: [output_path] with a trailing separator. *)
Definition with_separator (output_path : string) : string :=
  if negb (Str.endswith output_path "/") && negb (Str.endswith output_path "\")
  then output_path ++ "/" else output_path.

(** The [try]/[except ValueError] around [int(n_files)]. *)
Definition parse_n_files (n_files : string) : M Z :=
  match int_of_str n_files with
  | inl n =>
      if (n <? 1)%Z then
        (print ("Error: n_files must be a positive integer: "
                ++ "n_files must be at least 1") ;;
         sys_exit 1)%prog
      else ret n
  | inr e =>
      (print ("Error: n_files must be a positive integer: " ++ e) ;;
       sys_exit 1)%prog
  end.

(** Lines 155-156: the name of part [i]. *)
Definition part_file_name (output_path base_filename extension : string)
    (i : Z) : string :=
  let part_num := Str.fmt_02d i in
  output_path ++ base_filename ++ ".part" ++ part_num ++ extension.

(** Line 161: the directory handed to [os.makedirs],
    [os.path.dirname(output_file)] or ['.'] when that is empty. *)
Definition output_dir (output_file : string) : string :=
  let dir := Str.dirname output_file in
  if String.eqb dir "" then "." else dir.

(** The body of the writing loop, lines 154-170. *)
Definition write_part (output_path base_filename extension : string)
    (file_sizes : list Z) (entry : Z * list text) : M (list Z) :=
  let '(i, part_lines) := entry in
  let output_file := part_file_name output_path base_filename extension i in
  (print ("Writing " ++ output_file ++ " ("
          ++ Str.fmt_comma (Py.len part_lines)
          ++ " lines including header)...") ;;
   makedirs makedirs_refused (output_dir output_file) ;;
   write_file write_failure output_file (gzip_write output_file part_lines) ;;
   size <- getsize output_file ;;
   print ("  Size: " ++ fmt_mb size ++ " MB") ;;
   ret (file_sizes ++ [size])%list)%prog.

(** [max(file_sizes)] and [min(file_sizes)] on a non-empty list. *)
Definition list_max (xs : list Z) : Z := foldr Z.max (default 0%Z (head xs)) xs.
Definition list_min (xs : list Z) : Z := foldr Z.min (default 0%Z (head xs)) xs.

(** [main], with [sys.argv] as [argv]. *)
Definition main (argv : list string) : M unit :=
  (args <- parse_arguments argv ;;
   let input_file := args !! "input_file" in
   let output_path := args !! "output_path" in
   let n_files := args !! "n_files" in
   when (negb (truthy input_file))
     (print "Error: input_file is required" ;; print usage ;; sys_exit 1) ;;
   when (negb (truthy output_path))
     (print "Error: output_path is required" ;; print usage ;; sys_exit 1) ;;
   when (negb (truthy n_files))
     (print "Error: n_files is required" ;; print usage ;; sys_exit 1) ;;
   let input_file := default "" input_file in
   let output_path := default "" output_path in
   n_files <- parse_n_files (default "" n_files) ;;
   let output_path := with_separator output_path in
   found <- path_exists input_file ;;
   when (negb found)
     (print ("Error: Input file '" ++ input_file ++ "' does not exist") ;;
      sys_exit 1) ;;
   let base_filename := get_base_filename input_file in
   let extension := get_file_extension input_file in
   print ("Reading " ++ input_file ++ "...") ;;
   lines <- read_file_lines input_file ;;
   let total_lines := Py.len lines in
   print ("Total lines: " ++ Str.fmt_comma total_lines) ;;
   when (total_lines =? 0)%Z
     (print "Error: Input file is empty" ;; sys_exit 1) ;;
   let lines_per_part := (Py.len (Py.slice_from lines 1) / n_files)%Z in
   print ("Splitting into " ++ pretty n_files ++ " parts...") ;;
   print ("Lines per part: ~" ++ Str.fmt_comma lines_per_part
          ++ " (excluding header)") ;;
   let parts := split_lines lines n_files in
   file_sizes <- for_each (enumerate1 parts) []
                   (write_part output_path base_filename extension) ;;
   print (NL ++ "Summary:") ;;
   print ("  Total parts: " ++ pretty n_files) ;;
   print ("  Average size: " ++ fmt_avg_mb file_sizes ++ " MB") ;;
   print ("  Largest part: " ++ fmt_mb (list_max file_sizes) ++ " MB") ;;
   print ("  Smallest part: " ++ fmt_mb (list_min file_sizes) ++ " MB") ;;
   (if existsb (fun size => (MAX_SIZE_MB * (1024 * 1024) <? size)%Z) file_sizes
    then print (NL ++ "Warning: One or more parts exceed "
                ++ pretty MAX_SIZE_MB ++ "MB!")
    else print (NL ++ "Success: All parts are under "
                ++ pretty MAX_SIZE_MB ++ "MB!")) ;;
   print "Done!")%prog.

End Main.

End SplitData.

(** ** [convert_to_parquet.py] *)
Module ConvertToParquet.

Local Open Scope string_scope.

Definition OUTPUT_PREFIX : string := "hairfollicle".
Definition NUM_SHARDS : Z := 10.
Definition RANDOM_SEED : Z := 42.

Definition FLOAT32_COLUMNS : list string :=
  ["x"; "y"; "z"; "transformedX"; "transformedY"; "transformedZ";
   "X_shifted"; "Time"].
Definition INT16_COLUMNS : list string := ["TimeRank"].
Definition CATEGORICAL_COLUMNS : list string :=
  ["Gene"; "CellType"; "Structure"; "HF"; "Sample"; "Group"].

Local Close Scope string_scope.

(** The target of a [Series.astype] call of the script. *)
Inductive dtype := float32 | int16 | category.

(** A two's-complement 16-bit integer read back as a signed number: what an
    integer cast to [int16] keeps of a wider integer. *)
Definition wrap16 (n : Z) : Z := (n + 32768) mod 65536 - 32768.

(** Dictionary encoding of a string column ([None] is a missing value): the
    categories are the distinct values in sorted order and each cell is the
    position of its value, [-1] when missing. *)
Definition categories_of (xs : list (option string)) : list string :=
  merge_sort String.le (remove_dups (omap id xs)).

Definition code_of (categories : list string) (x : option string) : Z :=
  match x with
  | Some s =>
      match list_find (fun c => c = s) categories with
      | Some (i, _) => Z.of_nat i
      | None => -1
      end
  | None => -1
  end.


(** *** The type optimizer, column-wise

    A frame is viewed here as a map from column names to columns.  Floating
    point values are kept abstract: [F64] and [F32] are the two widths and
    [narrow] the rounding from one to the other.  The conversions the script
    announces (float64 to float32, integers to int16, strings to category)
    are written out; [astype_other] stands for [Series.astype] on any other
    combination, [None] when it raises. *)
Section Optimize.

Variables F64 F32 : Type.
Variable narrow : F64 -> F32.

Inductive column :=
| Float64 (xs : list F64)
| Float32 (xs : list F32)
| Int64 (xs : list Z)
| Int16 (xs : list Z)
| Object (xs : list (option string))
| Category (categories : list string) (codes : list Z).

Variable astype_other : dtype -> column -> option column.

(** [series.astype(target)] *)
Definition astype (target : dtype) (c : column) : option column :=
  match target, c with
  | float32, Float64 xs => Some (Float32 (map narrow xs))
  | int16, Int64 xs => Some (Int16 (map wrap16 xs))
  | category, Object xs =>
      let categories := categories_of xs in
      Some (Category categories (map (code_of categories) xs))
  | _, _ => astype_other target c
  end.

(** [if col in df.columns: df[col] = df[col].astype(target)] *)
Definition convert (target : dtype) (df : gmap string column) (col : string)
  : option (gmap string column) :=
  match df !! col with
  | Some c =>
      match astype target c with
      | Some c' => Some (<[col := c']> df)
      | None => None
      end
  | None => Some df
  end.

(** One of the three [for col in ...] loops; a raising cast ends the run. *)
Fixpoint convert_all (target : dtype) (df : gmap string column)
    (cols : list string) : option (gmap string column) :=
  match cols with
  | [] => Some df
  | col :: cols' =>
      match convert target df col with
      | Some df' => convert_all target df' cols'
      | None => None
      end
  end.

(** [optimize_dtypes]; the memory report and the ['cell'] branch only print. *)
Definition optimize_dtypes (df : gmap string column)
  : option (gmap string column) :=
  match convert_all float32 df FLOAT32_COLUMNS with
  | Some df1 =>
      match convert_all int16 df1 INT16_COLUMNS with
      | Some df2 => convert_all category df2 CATEGORICAL_COLUMNS
      | None => None
      end
  | None => None
  end.

(** The columns the script converts to a given target. *)
Definition columns_of (target : dtype) : list string :=
  match target with
  | float32 => FLOAT32_COLUMNS
  | int16 => INT16_COLUMNS
  | category => CATEGORICAL_COLUMNS
  end.

(** No cast the script would perform on [df] raises. *)
Definition casts_succeed (df : gmap string column) : Prop :=
  forall (target : dtype) (col : string) (c : column),
    col ∈ columns_of target -> df !! col = Some c ->
    is_Some (astype target c).

(** The values a column stands for, whatever its storage. *)
Inductive value :=
| VFloat64 (x : F64)
| VFloat32 (x : F32)
| VInt (n : Z)
| VStr (s : string)
| VMissing.



End Optimize.

(** *** The shuffle/shard partitioner, row-wise

    A frame is viewed here as the list of its rows, which is what [iloc]
    addresses.  NumPy's global generator is a state [rng]:
    [rng_seed seed] is the state [np.random.seed(seed)] installs ([None]
    when it rejects the seed) and [rng_permutation g n] is the array drawn by
    [np.random.permutation(n)] from state [g], with the state it leaves.
    Console output and file sizes are not modelled; a written Parquet file
    is recorded as the shard it holds. *)
Inductive error :=
| ValueError          (* [np.random.seed] rejects the seed *)
| IndexError          (* positional index out of bounds *)
| ZeroDivisionError.

Record shard (row : Type) := Shard {
  shard_name : string;       (* [shard_path.name] *)
  start_row : Z;
  end_row : Z;
  shard_rows : list row      (* [shard_df] *)
}.
Arguments Shard {row} shard_name start_row end_row shard_rows.
Arguments shard_name {row} s.
Arguments start_row {row} s.
Arguments end_row {row} s.
Arguments shard_rows {row} s.

Section Shuffle.

Variable rng : Type.
Variable rng_seed : Z -> option rng.
Variable rng_permutation : rng -> nat -> list nat * rng.
Context {row : Type}.

(** What the generator is relied on for: [np.random.permutation(n)]
    returns the positions [0 .. n-1] in some order. *)
Definition draws_permutations : Prop :=
  forall (g : rng) (n : nat), (rng_permutation g n).1 ≡ₚ seq 0 n.

(** [df.iloc[indices]] for an array of non-negative positions. *)
Definition iloc (df : list row) (indices : list nat) : option (list row) :=
  mapM (fun i => df !! i) indices.

(** The body of the sharding loop, lines 134-139 and 163. *)
Definition make_shard (df_shuffled : list row) (prefix : string)
    (num_shards total_rows rows_per_shard shard_idx : Z) : shard row :=
  let start_row := shard_idx * rows_per_shard in
  let end_row :=
    if shard_idx =? num_shards - 1 then total_rows
    else (shard_idx + 1) * rows_per_shard in
  let shard_df := Py.slice df_shuffled start_row end_row in
  let name :=
    (prefix ++ ".shard" ++ Str.fmt_02d (shard_idx + 1) ++ ".parquet")%string in
  Shard name start_row end_row shard_df.

(** [shuffle_and_shard(df, output_dir, prefix, num_shards, seed)] run from
    generator state [g]: the shards written, in order, or the exception
    raised, together with the generator state left behind. *)
Definition shuffle_and_shard (df : list row) (prefix : string)
    (num_shards seed : Z) (g : rng) : (error + list (shard row)) * rng :=
  match rng_seed seed with
  | None => (inl ValueError, g)
  | Some g1 =>
      let '(shuffled_indices, g2) := rng_permutation g1 (length df) in
      match iloc df shuffled_indices with
      | None => (inl IndexError, g2)
      | Some df_shuffled =>
          if num_shards =? 0 then (inl ZeroDivisionError, g2)
          else
            let total_rows := Py.len df_shuffled in
            let rows_per_shard := total_rows / num_shards in
            (inr (map (make_shard df_shuffled prefix num_shards total_rows
                         rows_per_shard)
                    (Py.range num_shards)), g2)
      end
  end.

End Shuffle.

End ConvertToParquet.

(** ** Vocabulary for statements about a run of the splitter *)
Module Invocation.

Import Proc SplitData.

(** Running a command: it finishes with [r] in a world with the same files
    and with [out] appended to the output. *)
Definition prints {A} (m : M A) (w : world) (r : outcome A)
    (out : list string) : Prop :=
  m w = (r, World (files w) (stdout w ++ out)).

(** The dictionary [parse_arguments] builds from a command line. *)
Definition arguments (argv : list string) : gmap string string :=
  match fst (parse_arguments argv (World ∅ [])) with
  | Done args => args
  | _ => ∅
  end.

(** The lines [parse_arguments] prints. *)
Definition is_warning (s : string) : Prop :=
  String.prefix "Warning: " s = true.

(** Where part [i] starts when the quotient is [q] and the remainder [r]:
    the value of [start_idx] on entering iteration [i] of the loop. *)
Definition part_start (q r i : Z) : Z := i * q + Z.min i r.

Definition required : list string :=
  ["input_file"; "output_path"; "n_files"]%string.

(** All three required arguments are given a non-empty value. *)
Definition all_required (args : gmap string string) : bool :=
  forallb (fun key => truthy (args !! key)) required.

(** The line boundaries [str.splitlines] is documented to split at: LF, VT,
    FF, CR, FS, GS, RS, NEL, LS and PS. *)
Definition line_boundary (c : N) : Prop :=
  c ∈ [10; 11; 12; 13; 28; 29; 30; 133; 8232; 8233]%N.

(** [lines_of t ls]: [ls] is the text [t] split into lines, line endings
    kept.  The text is cut after every line boundary and nowhere else, a
    carriage return followed by a line feed being one boundary; what
    follows the last boundary, if anything, is the last line. *)
Inductive lines_of : text -> list text -> Prop :=
| lines_of_empty : lines_of [] []
| lines_of_unterminated (body : text) :
    body <> [] ->
    Forall (fun c => ~ line_boundary c) body ->
    lines_of body [body]
| lines_of_crlf (body rest : text) (ls : list text) :
    Forall (fun c => ~ line_boundary c) body ->
    lines_of rest ls ->
    lines_of (body ++ [13; 10]%N ++ rest) ((body ++ [13; 10]%N) :: ls)
| lines_of_boundary (body : text) (c : N) (rest : text) (ls : list text) :
    Forall (fun c => ~ line_boundary c) body ->
    line_boundary c ->
    (c = 13%N -> head rest <> Some 10%N) ->
    lines_of rest ls ->
    lines_of (body ++ [c] ++ rest) ((body ++ [c]) :: ls).

Section Invocation.

Variable int_of_str : string -> Z + string.
Variable gzip_decompress : list Byte.byte -> option (list Byte.byte).
Variable gzipfile_read : list Byte.byte -> list Byte.byte + exn.
Variable utf8_decode : list Byte.byte -> text.

(** A command line the validation of [main] accepts: the three arguments are
    present and [n_files] reads as the integer [n >= 1]. *)
Record valid_arguments (argv : list string)
    (input_file output_path : string) (n : Z) : Prop := {
  valid_input_file :
    arguments argv !! "input_file"%string = Some input_file
    /\ input_file <> ""%string;
  valid_output_path :
    arguments argv !! "output_path"%string = Some output_path
    /\ output_path <> ""%string;
  valid_n_files :
    exists n_files, arguments argv !! "n_files"%string = Some n_files
      /\ n_files <> ""%string /\ int_of_str n_files = inl n /\ 1 <= n
}.

(** The lines a file decodes to: it exists, one of the two decompression
    paths accepts it, and the decoded text splits into these lines. *)
Definition decoded_lines (fs : gmap string (list Byte.byte))
    (input_file : string) : option (list text) :=
  match fs !! input_file with
  | Some compressed_data =>
      match gunzip gzip_decompress gzipfile_read compressed_data with
      | inl raw => Some (ensure_final_newline (splitlines (utf8_decode raw)))
      | inr _ => None
      end
  | None => None
  end.

(** The invocations the validation is meant to turn away. *)
Inductive rejected (argv : list string) (fs : gmap string (list Byte.byte))
  : Prop :=
| missing_argument :
    all_required (arguments argv) = false -> rejected argv fs
| bad_n_files n_files :
    arguments argv !! "n_files"%string = Some n_files ->
    (forall n, int_of_str n_files = inl n -> n < 1) ->
    rejected argv fs
| missing_input input_file :
    arguments argv !! "input_file"%string = Some input_file ->
    fs !! input_file = None ->
    rejected argv fs
| empty_input input_file :
    arguments argv !! "input_file"%string = Some input_file ->
    decoded_lines fs input_file = Some [] ->
    rejected argv fs.

(** The files after the parts [entries] (number and lines) are written
    under the names [name] gives them. *)
Definition write_all (gzip_write : string -> list text -> list Byte.byte)
    (name : Z -> string) (entries : list (Z * list text))
    (fs : gmap string (list Byte.byte)) : gmap string (list Byte.byte) :=
  foldl (fun fs entry =>
           <[name entry.1 := gzip_write (name entry.1) entry.2]> fs)
    fs entries.

(** Nothing stops the writing of the parts [entries] from the files [fs]:
    for each part in turn, with the parts before it written, neither
    [os.makedirs] on the directory of its file nor the write raises. *)
Fixpoint writes_allowed
    (gzip_write : string -> list text -> list Byte.byte)
    (makedirs_refused : gmap string (list Byte.byte) -> string -> option exn)
    (write_failure : gmap string (list Byte.byte) -> string
                     -> list Byte.byte
                     -> option (exn * option (list Byte.byte)))
    (name : Z -> string) (entries : list (Z * list text))
    (fs : gmap string (list Byte.byte)) : Prop :=
  match entries with
  | [] => True
  | entry :: entries' =>
      let output_file := name entry.1 in
      let data := gzip_write output_file entry.2 in
      makedirs_error makedirs_refused fs (output_dir output_file) = None
      /\ write_failure fs output_file data = None
      /\ writes_allowed gzip_write makedirs_refused write_failure name
           entries' (<[output_file := data]> fs)
  end.

End Invocation.

End Invocation.

(** ** A small run-time library for evaluating the model

    Stand-ins for the interpreter's functions, used to run the definitions
    above on concrete inputs: decimal [int], a codec that stores text as it
    is (one byte per character), sizes printed in whole megabytes, and a
    generator whose permutation rotates the positions by its state. *)
Module Sample.

Local Open Scope string_scope.

Fixpoint digits_value (acc : Z) (s : string) : option Z :=
  match s with
  | EmptyString => Some acc
  | String c s' =>
      match Ascii.is_nat c with
      | Some d => digits_value (10 * acc + Z.of_nat d)%Z s'
      | None => None
      end
  end.

Definition int_of_str (s : string) : Z + string :=
  let invalid := inr ("invalid literal for int() with base 10: '" ++ s ++ "'") in
  match s with
  | EmptyString => invalid
  | String "-" EmptyString => invalid
  | String "-" s' =>
      match digits_value 0 s' with Some n => inl (- n)%Z | None => invalid end
  | _ => match digits_value 0 s with Some n => inl n | None => invalid end
  end.

Definition gzip_decompress (data : list Byte.byte) : option (list Byte.byte) :=
  Some data.
Definition gzipfile_read (data : list Byte.byte)
  : list Byte.byte + Proc.exn :=
  inr Proc.BadGzipFile.
Definition utf8_decode (data : list Byte.byte) : list N :=
  map Byte.to_N data.
Definition gzip_write (path : string) (lines : list (list N))
  : list Byte.byte :=
  map (fun c => default Byte.x3f (Byte.of_N c)) (concat lines).
Definition fmt_mb (size : Z) : string :=
  pretty (size / (1024 * 1024))%Z ++ ".00".
Definition fmt_avg_mb (sizes : list Z) : string :=
  fmt_mb (foldr Z.add 0%Z sizes / Py.len sizes)%Z.

(** A file system in which only regular files are in the way: nothing
    else refuses a directory or a write. *)
Definition makedirs_refused (fs : gmap string (list Byte.byte))
    (path : string) : option Proc.exn := None.
Definition write_failure (fs : gmap string (list Byte.byte))
    (path : string) (data : list Byte.byte)
  : option (Proc.exn * option (list Byte.byte)) := None.

Definition split_data : list string -> Proc.M unit :=
  SplitData.main int_of_str gzip_decompress gzipfile_read utf8_decode
    gzip_write fmt_mb fmt_avg_mb makedirs_refused write_failure.

(** The bytes of an ASCII text. *)
Definition bytes_of (s : string) : list Byte.byte := list_byte_of_string s.

(** Integers stand in for the floating-point cells, and the rounding to the
    narrower width is the next even integer; no cast beyond the three the
    model writes out is available. *)
Definition narrow (x : Z) : Z := (2 * ((x + 1) / 2))%Z.
Definition astype_other (target : ConvertToParquet.dtype)
    (c : ConvertToParquet.column Z Z) : option (ConvertToParquet.column Z Z) :=
  None.
Definition optimize :=
  ConvertToParquet.optimize_dtypes Z Z narrow astype_other.

Definition rng : Type := Z.
Definition rng_seed (seed : Z) : option rng :=
  if ((0 <=? seed) && (seed <? 2 ^ 32))%Z then Some seed else None.
Definition rng_permutation (g : rng) (n : nat) : list nat * rng :=
  let k := Z.to_nat (g mod Z.of_nat n) in
  let positions := seq 0 n in
  ((drop k positions ++ take k positions)%list,
   ((1103515245 * g + 12345) mod 2 ^ 31)%Z).

(** A command line for the splitter and a world whose only file is its
    input, holding [content]. *)
Definition argv (n_files : string) : list string :=
  ["split_data.py"; "input_file=in/cells.tsv.gz"; "output_path=out";
   "n_files=" ++ n_files].

(** The same command line with the parts sent to [output_path]. *)
Definition argv_to (output_path n_files : string) : list string :=
  ["split_data.py"; "input_file=in/cells.tsv.gz";
   "output_path=" ++ output_path; "n_files=" ++ n_files].

Definition world (content : string) : Proc.world :=
  Proc.World {[ "in/cells.tsv.gz" := bytes_of content ]} [].

(** A frame with an integer TimeRank column and a string Gene column. *)
Definition timerank_frame (xs : list Z)
  : gmap string (ConvertToParquet.column Z Z) :=
  {[ "TimeRank" := ConvertToParquet.Int64 Z Z xs;
     "Gene" := ConvertToParquet.Object Z Z
                 [Some "Krt14"; None; Some "Acta2"; Some "Krt14"] ]}.

(** A frame with a float coordinate column, an integer TimeRank column and
    an unlisted string column. *)
Definition coordinate_frame (xs ranks : list Z)
  : gmap string (ConvertToParquet.column Z Z) :=
  {[ "x" := ConvertToParquet.Float64 Z Z xs;
     "TimeRank" := ConvertToParquet.Int64 Z Z ranks;
     "cell" := ConvertToParquet.Object Z Z [Some "c1"; Some "c2"] ]}.

End Sample.

(** ** Vocabulary for further statements *)
Module More.

Import Proc SplitData.

(** [c in s] *)
Fixpoint occurs (c : ascii) (s : string) : bool :=
  match s with
  | EmptyString => false
  | String a s' => Ascii.eqb a c || occurs c s'
  end.

(** The warning [parse_arguments] prints for an argument without ['=']. *)
Definition warning_for (arg : string) : string :=
  ("Warning: Ignoring argument '" ++ arg
   ++ "' (expected format: key=value)")%string.

(** The warnings of a command line, in the order of its arguments. *)
Definition warnings_of (argv : list string) : list string :=
  map warning_for (filter (fun arg => occurs "=" arg = false) (drop 1 argv)).

(** A text with a final newline: the empty text stays empty, any other
    text gets a line feed unless it ends with one. *)
Definition newline_terminated (t : text) : text :=
  match t with
  | [] => []
  | _ => if endswith_newline t then t else t ++ [LF]
  end.

(** A line with a Unix or a DOS ending: no line boundary inside, then LF
    or CR LF. *)
Definition complete_line (l : text) : Prop :=
  exists body,
    Forall (fun c => is_linebreak c = false) body
    /\ (l = body ++ [LF] \/ l = body ++ [CR; LF]).

(** A directory prefix of a path: empty, or ending with the separator. *)
Definition directory_prefix (dir : string) : Prop :=
  Str.rfind "/" dir = Z.of_nat (String.length dir) - 1.

(** The files after a run that writes the parts of [lines]. *)
Definition files_after (gzip_write : string -> list text -> list Byte.byte)
    (fs : gmap string (list Byte.byte))
    (input_file output_path : string) (n : Z) (lines : list text)
  : gmap string (list Byte.byte) :=
  Invocation.write_all gzip_write
    (part_file_name (with_separator output_path)
       (get_base_filename input_file) (get_file_extension input_file))
    (enumerate1 (split_lines lines n)) fs.

(** The sizes in bytes of the files the parts of [lines] are written to,
    in the order of the parts. *)
Definition part_sizes (gzip_write : string -> list text -> list Byte.byte)
    (input_file output_path : string) (n : Z) (lines : list text) : list Z :=
  map (fun entry : Z * list text =>
         Py.len (gzip_write
                   (part_file_name (with_separator output_path)
                      (get_base_filename input_file)
                      (get_file_extension input_file) entry.1)
                   entry.2))
    (enumerate1 (split_lines lines n)).

(** Nothing stops the writes of a run of [main] that splits [lines]. *)
Definition run_allowed (gzip_write : string -> list text -> list Byte.byte)
    (makedirs_refused : gmap string (list Byte.byte) -> string -> option exn)
    (write_failure : gmap string (list Byte.byte) -> string
                     -> list Byte.byte
                     -> option (exn * option (list Byte.byte)))
    (fs : gmap string (list Byte.byte))
    (input_file output_path : string) (n : Z) (lines : list text) : Prop :=
  Invocation.writes_allowed gzip_write makedirs_refused write_failure
    (part_file_name (with_separator output_path)
       (get_base_filename input_file) (get_file_extension input_file))
    (enumerate1 (split_lines lines n)) fs.

(** A file system that denies the write of the second part and lets every
    other write through. *)
Definition second_part_denied (fs : gmap string (list Byte.byte))
    (path : string) (data : list Byte.byte)
  : option (exn * option (list Byte.byte)) :=
  if String.eqb path "out/cells.part02.tsv.gz"
  then Some (PermissionError, None) else None.

(** The splitter run with a codec that takes every input for a truncated
    gzip stream: [gzip.decompress] raises and so does the fallback, with
    [EOFError]. *)
Definition split_data_bad_codec : list string -> M unit :=
  SplitData.main Sample.int_of_str (fun _ => None) (fun _ => inr EOFError)
    Sample.utf8_decode Sample.gzip_write Sample.fmt_mb Sample.fmt_avg_mb
    Sample.makedirs_refused Sample.write_failure.

(** The sample generator run on [df] with the script's prefix and seed. *)
Definition sample_run (df : list nat) (num_shards : Z) :=
  (ConvertToParquet.shuffle_and_shard Sample.rng Sample.rng_seed
     Sample.rng_permutation df ConvertToParquet.OUTPUT_PREFIX num_shards
     ConvertToParquet.RANDOM_SEED 0).1.

End More.

(** * Properties *)

(** ** Python slices and ranges *)
Module PyFacts.

Import Py.

Lemma len_nonneg {A} (l : list A) : 0 <= len l.
Proof. unfold len. lia. Qed.

Lemma clamp_in_range n i : 0 <= i <= n -> clamp n i = i.
Proof. unfold clamp. intros H. destruct (Z.ltb_spec i 0); lia. Qed.

Lemma slice_in_range {A} (l : list A) s e :
  0 <= s <= e -> e <= len l ->
  slice l s e = take (Z.to_nat (e - s)) (drop (Z.to_nat s) l).
Proof.
  intros Hs He. unfold slice.
  rewrite !clamp_in_range by lia. reflexivity.
Qed.

Lemma length_slice_in_range {A} (l : list A) s e :
  0 <= s <= e -> e <= len l -> len (slice l s e) = e - s.
Proof.
  intros Hs He. rewrite slice_in_range by assumption.
  unfold len in *. rewrite length_take, length_drop. lia.
Qed.

Lemma length_range n : length (range n) = Z.to_nat n.
Proof. unfold range. by rewrite length_map, length_seq. Qed.

Lemma range_lookup n i :
  (i < Z.to_nat n)%nat -> range n !! i = Some (Z.of_nat i).
Proof.
  intros Hi. unfold range. rewrite list_lookup_fmap.
  by rewrite lookup_seq_lt.
Qed.

Lemma slice_app {A} (l : list A) x y z :
  0 <= x <= y -> y <= z -> z <= len l ->
  slice l x y ++ slice l y z = slice l x z.
Proof.
  intros Hx Hy Hz. rewrite !slice_in_range by lia.
  replace (drop (Z.to_nat y) l)
    with (drop (Z.to_nat (y - x)) (drop (Z.to_nat x) l))
    by (rewrite drop_drop; f_equal; lia).
  rewrite take_take_drop. f_equal. lia.
Qed.

Lemma slice_all {A} (l : list A) : slice l 0 (len l) = l.
Proof.
  rewrite slice_in_range by (pose proof (len_nonneg l); lia).
  rewrite drop_0, take_ge; [reflexivity | unfold len; lia].
Qed.

(** Bounds that grow step by step grow over any distance. *)
Lemma bounds_mono (b : Z -> Z) (a k : nat) :
  (forall i : nat, (a <= i < a + k)%nat ->
     b (Z.of_nat i) <= b (Z.of_nat i + 1)) ->
  forall j : nat, (a <= j <= a + k)%nat -> b (Z.of_nat a) <= b (Z.of_nat j).
Proof.
  intros Hmono. induction j as [|j IHj]; intros Hj.
  - by replace a with 0%nat by lia.
  - destruct (decide (a = S j)) as [->|]; [lia|].
    etrans; [apply IHj; lia|].
    replace (Z.of_nat (S j)) with (Z.of_nat j + 1) by lia.
    apply Hmono. lia.
Qed.

(** Consecutive slices between the bounds [b a, b (a+1), ..., b (a+k)] add
    up to the slice from the first bound to the last. *)
Lemma concat_slices {A} (l : list A) (b : Z -> Z) (k : nat) : forall a : nat,
  0 <= b (Z.of_nat a) ->
  (forall i : nat, (a <= i < a + k)%nat ->
     b (Z.of_nat i) <= b (Z.of_nat i + 1)) ->
  b (Z.of_nat (a + k)) <= len l ->
  concat (map (fun i => slice l (b i) (b (i + 1))) (map Z.of_nat (seq a k)))
  = slice l (b (Z.of_nat a)) (b (Z.of_nat (a + k))).
Proof.
  induction k as [|k IH]; intros a Ha Hmono Hlast; simpl.
  - rewrite Nat.add_0_r in *. rewrite slice_in_range by lia.
    by rewrite Z.sub_diag.
  - pose proof (bounds_mono b a (S k) Hmono) as Hle.
    assert (b (Z.of_nat (S a)) <= b (Z.of_nat (S a + k))) as Hrest.
    { apply (bounds_mono b (S a) k); [|lia].
      intros i Hi. apply Hmono. lia. }
    replace (Z.of_nat a + 1) with (Z.of_nat (S a)) by lia.
    replace (a + S k)%nat with (S a + k)%nat in * by lia.
    pose proof (Hle (S a) ltac:(lia)).
    rewrite IH; [|lia|intros i Hi; apply Hmono; lia|assumption].
    apply slice_app; [lia|assumption..].
Qed.

End PyFacts.

(** ** Sample evaluations of the string helpers *)
Module StrExamples.

Import Str SplitData.
Local Open Scope string_scope.

Example fmt_02d_7 : fmt_02d 7 = "07". Proof. reflexivity. Qed.
Example fmt_02d_12 : fmt_02d 12 = "12". Proof. reflexivity. Qed.
Example fmt_02d_123 : fmt_02d 123 = "123". Proof. reflexivity. Qed.
Example fmt_comma_big : fmt_comma 1234567 = "1,234,567". Proof. reflexivity. Qed.
Example fmt_comma_small : fmt_comma 999 = "999". Proof. reflexivity. Qed.
Example splitext_tsv : splitext "data/cells.tsv" = ("data/cells", ".tsv").
Proof. reflexivity. Qed.
Example splitext_hidden : splitext "data/.profile" = ("data/.profile", "").
Proof. reflexivity. Qed.
Example basename_path : basename "data/cells.tsv.gz" = "cells.tsv.gz".
Proof. reflexivity. Qed.
Example split_once_kv : split_once "=" "n_files=a=b" = Some ("n_files", "a=b").
Proof. reflexivity. Qed.
Example dirname_part : dirname "out/sub//cells.part01.tsv.gz" = "out/sub".
Proof. reflexivity. Qed.
Example dirname_bare : dirname "cells.part01.tsv.gz" = "".
Proof. reflexivity. Qed.
Example dirname_root : dirname "/cells.part01.tsv.gz" = "/".
Proof. reflexivity. Qed.
Example output_dir_backslash : output_dir "out\cells.part01.tsv.gz" = ".".
Proof. reflexivity. Qed.
Example parents_nested :
  Proc.parents 9 "/data/out/x" = ["/data/out"; "/data"; "/"].
Proof. reflexivity. Qed.

Example extension_tsv_gz : get_file_extension "data/cells.tsv.gz" = ".tsv.gz".
Proof. reflexivity. Qed.
Example base_tsv_gz : get_base_filename "data/cells.tsv.gz" = "cells".
Proof. reflexivity. Qed.
Example splitlines_crlf :
  splitlines [97; 13; 10; 98; 10; 10; 99]%N
  = [[97; 13; 10]; [98; 10]; [10]; [99]]%N.
Proof. reflexivity. Qed.

End StrExamples.

(** ** Part numbers and file names *)
Module StrFacts.

Import Str.

Lemma list_ascii_of_string_app (s t : string) :
  list_ascii_of_string (s ++ t)
  = (list_ascii_of_string s ++ list_ascii_of_string t)%list.
Proof. induction s as [|c s IH]; simpl; [reflexivity | by rewrite IH]. Qed.

Lemma string_app_inv_tail (s1 s2 t : string) :
  (s1 ++ t)%string = (s2 ++ t)%string -> s1 = s2.
Proof.
  intros H. apply (f_equal list_ascii_of_string) in H.
  rewrite !list_ascii_of_string_app in H. apply app_inv_tail in H.
  apply (f_equal string_of_list_ascii) in H.
  by rewrite !string_of_list_ascii_of_string in H.
Qed.

(** The decimal of a positive number does not start with a zero. *)
Lemma pretty_N_go_head (x : N) : forall s,
  (0 < x)%N ->
  exists c s', pretty_N_go x s = String c s' /\ c <> "0"%char.
Proof.
  induction (N.lt_wf_0 x) as [x _ IH]. intros s Hx.
  rewrite pretty_N_go_step by assumption.
  destruct (decide (x `div` 10 = 0)%N) as [Hsmall|Hbig].
  - rewrite Hsmall, pretty_N_go_0. eexists _, _. split; [reflexivity|].
    apply N.div_small_iff in Hsmall; [|lia].
    rewrite N.mod_small by assumption.
    assert (x = 1 \/ x = 2 \/ x = 3 \/ x = 4 \/ x = 5 \/ x = 6 \/ x = 7
            \/ x = 8 \/ x = 9)%N as Hcases by lia.
    repeat (destruct Hcases as [->|Hcases]; [discriminate|]).
    by subst x.
  - apply IH; [apply N.div_lt; lia | by apply N.neq_0_lt_0].
Qed.

Lemma pretty_pos_head (n : Z) :
  0 < n -> exists c s', pretty n = String c s' /\ c <> "0"%char.
Proof.
  destruct n as [|p|p]; try lia. intros _.
  unfold pretty, pretty_Z, pretty, pretty_positive, pretty, pretty_N.
  destruct (decide (N.pos p = 0)%N); [lia|].
  apply pretty_N_go_head. lia.
Qed.

(** Distinct part numbers are written differently. *)
Lemma fmt_02d_inj (i j : Z) :
  0 <= i -> 0 <= j -> fmt_02d i = fmt_02d j -> i = j.
Proof.
  assert (forall a b, 0 <= a -> 0 <= b ->
            (String.length (pretty a) <? 2)%nat = true ->
            (String.length (pretty b) <? 2)%nat = false ->
            ("0" ++ pretty a)%string <> pretty b) as Hmixed.
  { intros a b Ha Hb Hshort Hlong Heq.
    assert (b = 0 \/ 0 < b) as [->|Hpos] by lia; [discriminate Hlong|].
    destruct (pretty_pos_head b Hpos) as (c & s' & Hb' & Hc).
    rewrite Hb' in Heq. injection Heq as Hc' _. by symmetry in Hc'. }
  intros Hi Hj. unfold fmt_02d.
  destruct (String.length (pretty i) <? 2)%nat eqn:Hli,
           (String.length (pretty j) <? 2)%nat eqn:Hlj; intros Heq.
  - injection Heq as Heq. by apply (inj pretty).
  - by apply Hmixed in Heq.
  - symmetry in Heq. by apply Hmixed in Heq.
  - by apply (inj pretty).
Qed.

End StrFacts.

(** ** The line partitioner *)
Module SplitFacts.

Import Py PyFacts SplitData Invocation.

Lemma part_start_succ q r i :
  0 <= i -> part_start q r (i + 1) = part_start q r i + part_size q r i.
Proof.
  intros Hi. unfold part_start, part_size.
  destruct (Z.ltb_spec i r); lia.
Qed.

Lemma part_start_mono q r i : 0 <= q -> 0 <= i ->
  part_start q r i <= part_start q r (i + 1).
Proof.
  intros Hq Hi. rewrite part_start_succ by lia. unfold part_size.
  destruct (Z.ltb_spec i r); lia.
Qed.

Lemma part_start_nonneg q r i : 0 <= q -> 0 <= r -> 0 <= i ->
  0 <= part_start q r i.
Proof. intros. unfold part_start. nia. Qed.

Lemma part_start_last d n : 0 < n -> 0 <= d ->
  part_start (d / n) (d mod n) n = d.
Proof.
  intros Hn Hd. unfold part_start.
  pose proof (Z.mod_pos_bound d n Hn).
  pose proof (Z.div_mod d n ltac:(lia)). lia.
Qed.

Lemma part_start_bound d n i : 0 < n -> 0 <= d -> 0 <= i <= n ->
  part_start (d / n) (d mod n) i <= d.
Proof.
  intros Hn Hd Hi.
  rewrite <- (part_start_last d n Hn Hd) at 3. unfold part_start.
  pose proof (Z.mod_pos_bound d n Hn).
  pose proof (Z.div_pos d n Hd Hn). nia.
Qed.

(** The loop, run over positions [a, a + k), appends one part per position
    and leaves [start_idx] at the start of the next one. *)
Lemma split_loop header (data_lines : list text) q r k : forall a parts,
  fold_left (split_step header data_lines q r)
    (map Z.of_nat (seq a k)) (parts, part_start q r (Z.of_nat a))
  = (parts ++ map (fun i => header :: slice data_lines (part_start q r i)
                                         (part_start q r (i + 1)))
                (map Z.of_nat (seq a k)),
     part_start q r (Z.of_nat (a + k))).
Proof.
  induction k as [|k IH]; intros a parts; simpl.
  - rewrite app_nil_r. do 2 f_equal. lia.
  - rewrite <- part_start_succ by lia.
    replace (Z.of_nat a + 1) with (Z.of_nat (S a)) by lia.
    rewrite IH, <- app_assoc. simpl. do 2 f_equal. lia.
Qed.

Lemma split_lines_closed_form header (data_lines : list text) n_files :
  1 <= n_files ->
  let q := len data_lines / n_files in
  let r := len data_lines mod n_files in
  split_lines (header :: data_lines) n_files
  = map (fun i => header :: slice data_lines (part_start q r i)
                                (part_start q r (i + 1)))
      (range n_files).
Proof.
  intros Hn q r. unfold split_lines, slice_from, range. simpl.
  rewrite clamp_in_range by (unfold len; simpl; lia). simpl.
  rewrite drop_0. fold q r.
  assert (0 = part_start q r (Z.of_nat 0)) as Hstart.
  { unfold part_start. pose proof (Z.mod_pos_bound (len data_lines) n_files).
    subst r. lia. }
  rewrite Hstart at 1. by rewrite split_loop.
Qed.

Lemma length_split_lines (lines : list text) n_files :
  length (split_lines lines n_files) = Z.to_nat n_files.
Proof.
  unfold split_lines.
  set (f := split_step _ _ _ _).
  assert (forall xs st, length (fst (fold_left f xs st))
                        = (length (fst st) + length xs)%nat) as Hlen.
  { induction xs as [|x xs IH]; intros [parts s]; simpl; [lia|].
    rewrite IH. simpl. rewrite length_app. simpl. lia. }
  rewrite Hlen, length_range. reflexivity.
Qed.

(** Consecutive slices of the parts at positions [a, a + k) add up to one
    slice. *)
Lemma concat_part_slices (data_lines : list text) n_files k : forall a,
  1 <= n_files -> (a + k <= Z.to_nat n_files)%nat ->
  let q := len data_lines / n_files in
  let r := len data_lines mod n_files in
  concat (map (fun i => slice data_lines (part_start q r i)
                          (part_start q r (i + 1)))
            (map Z.of_nat (seq a k)))
  = slice data_lines (part_start q r (Z.of_nat a))
      (part_start q r (Z.of_nat (a + k))).
Proof.
  intros a Hn Hk q r.
  pose proof (len_nonneg data_lines) as Hd.
  assert (0 <= q) as Hq by (apply Z.div_pos; lia).
  assert (0 <= r) as Hr by (apply Z.mod_pos_bound; lia).
  apply (concat_slices data_lines (part_start q r)).
  - apply part_start_nonneg; lia.
  - intros i _. apply part_start_mono; lia.
  - apply part_start_bound; lia.
Qed.

(** Part [i] of the closed form: the header, then the lines its size
    allots to it. *)
Lemma split_lines_part (header : text) (data_lines : list text)
    (n_files : Z) (i : nat) (part : list text) :
  1 <= n_files ->
  split_lines (header :: data_lines) n_files !! i = Some part ->
  head part = Some header /\
  len (tail part)
  = if Z.of_nat i <? len data_lines mod n_files
    then len data_lines / n_files + 1 else len data_lines / n_files.
Proof.
  intros Hn Hpart. set (D := len data_lines).
  rewrite split_lines_closed_form in Hpart by assumption.
  rewrite list_lookup_fmap in Hpart.
  destruct (range n_files !! i) as [j|] eqn:Hj; [|discriminate].
  assert (i < Z.to_nat n_files)%nat as Hi.
  { apply lookup_lt_Some in Hj. by rewrite length_range in Hj. }
  rewrite range_lookup in Hj by assumption.
  injection Hj as <-. injection Hpart as <-. simpl. split; [reflexivity|].
  fold D. pose proof (len_nonneg data_lines) as Hd. fold D in Hd.
  assert (0 <= D / n_files) by (apply Z.div_pos; lia).
  pose proof (Z.mod_pos_bound D n_files ltac:(lia)).
  rewrite length_slice_in_range.
  - rewrite part_start_succ by lia. unfold part_size.
    destruct (Z.ltb_spec (Z.of_nat i) (D mod n_files)); lia.
  - pose proof (part_start_nonneg (D / n_files) (D mod n_files) (Z.of_nat i)).
    pose proof (part_start_mono (D / n_files) (D mod n_files) (Z.of_nat i)).
    lia.
  - apply part_start_bound; lia.
Qed.

(** C3. For every data-line count D and part count N >= 1 the line
    partitioner produces N parts; part [i] (counted from 0) has D // N + 1
    data lines when [i < D % N] and D // N otherwise, and its first line is
    the header. *)
Theorem split_lines_part_sizes (header : text) (data_lines : list text)
    (n_files : Z) :
  1 <= n_files ->
  let D := len data_lines in
  let parts := split_lines (header :: data_lines) n_files in
  length parts = Z.to_nat n_files /\
  forall (i : nat) (part : list text),
    parts !! i = Some part ->
    head part = Some header /\
    len (tail part)
    = if Z.of_nat i <? D mod n_files then D / n_files + 1 else D / n_files.
Proof.
  intros Hn D parts. split; [apply length_split_lines|].
  intros i part Hpart. by apply split_lines_part.
Qed.

(** C4. For every non-empty input and every part count N >= 1, the data
    lines of the parts (each part without its first line, the header),
    concatenated in part order, are the original data lines in their
    original order. *)
Theorem split_lines_concat (header : text) (data_lines : list text)
    (n_files : Z) :
  1 <= n_files ->
  concat (map tail (split_lines (header :: data_lines) n_files)) = data_lines.
Proof.
  intros Hn. rewrite split_lines_closed_form by assumption.
  rewrite map_map. simpl. unfold range.
  rewrite concat_part_slices by (assumption || lia). simpl.
  pose proof (len_nonneg data_lines) as Hd.
  rewrite Z2Nat.id, part_start_last by lia.
  unfold part_start.
  pose proof (Z.mod_pos_bound (len data_lines) n_files ltac:(lia)).
  rewrite Z.min_l by lia. simpl. apply slice_all.
Qed.

(** Five data lines in two parts: three and two, under the header. *)
Lemma split_lines_part_sizes_witness :
  let header := [104; 10]%N in
  let data_lines := [[97; 10]; [98; 10]; [99; 10]; [100; 10]; [101; 10]]%N in
  1 <= 2 /\
  (length (split_lines (header :: data_lines) 2) = 2%nat /\
   forall (i : nat) (part : list text),
     split_lines (header :: data_lines) 2 !! i = Some part ->
     head part = Some header /\
     len (tail part)
     = if Z.of_nat i <? len data_lines mod 2 then len data_lines / 2 + 1
       else len data_lines / 2).
Proof.
  intros header data_lines. split; [lia|].
  apply (split_lines_part_sizes header data_lines 2). lia.
Defined.

Lemma split_lines_concat_witness :
  let header := [104; 10]%N in
  let data_lines := [[97; 10]; [98; 10]; [99; 10]; [100; 10]; [101; 10]]%N in
  1 <= 3 /\
  concat (map tail (split_lines (header :: data_lines) 3)) = data_lines.
Proof.
  intros header data_lines. split; [lia|].
  apply (split_lines_concat header data_lines 3). lia.
Defined.

(** The example of the specification: 105 data lines in 10 parts give
    five parts of 11 and five of 10. *)
Example split_105_lines_in_10 :
  map (fun part => len (tail part))
    (split_lines (replicate 106 [120; 10]%N) 10)
  = [11; 11; 11; 11; 11; 10; 10; 10; 10; 10].
Proof. vm_compute. reflexivity. Qed.

End SplitFacts.

(** ** The splitter's entry point *)
Module MainFacts.

Import Py PyFacts Proc SplitData SplitFacts Invocation.

Lemma parse_arguments_loop (argv : list string) :
  forall (args : gmap string string),
  exists args' warnings, Forall is_warning warnings /\ forall w,
    prints (for_each argv args (fun args arg =>
      match Str.split_once "=" arg with
      | Some (key, value) => ret (<[key := value]> args)
      | None =>
          (print ("Warning: Ignoring argument '" ++ arg
                  ++ "' (expected format: key=value)")%string ;;
           ret args)%prog
      end)) w (Done args') warnings.
Proof.
  induction argv as [|arg argv IH]; intros args.
  - exists args, []. split; [constructor|].
    intros [fs out]. unfold prints. simpl. by rewrite app_nil_r.
  - simpl. destruct (Str.split_once "=" arg) as [[key value]|].
    + destruct (IH (<[key := value]> args)) as (args' & warnings & Hw & Hrun).
      exists args', warnings. split; [assumption|].
      intros w. unfold prints, bind, ret. apply Hrun.
    + destruct (IH args) as (args' & warnings & Hw & Hrun).
      exists args', (("Warning: Ignoring argument '" ++ arg
                       ++ "' (expected format: key=value)")%string
                      :: warnings).
      split.
      * constructor; [|assumption]. reflexivity.
      * intros w. unfold prints, bind, print, ret. simpl.
        rewrite (Hrun (World _ _)). simpl. by rewrite <- app_assoc.
Qed.

(** [parse_arguments] always returns, prints warnings only, leaves the files
    alone, and its result does not depend on the world it runs in. *)
Lemma parse_arguments_run (argv : list string) :
  exists warnings, Forall is_warning warnings /\ forall w,
    prints (parse_arguments argv) w (Done (arguments argv)) warnings.
Proof.
  destruct (parse_arguments_loop (drop 1 argv) ∅)
    as (args & warnings & Hw & Hrun).
  exists warnings. split; [assumption|]. intros w.
  unfold arguments, parse_arguments.
  rewrite (Hrun (World ∅ [])). apply Hrun.
Qed.

(** *** Stepping through a command *)
Lemma bind_done {A B} (m : M A) (k : A -> M B) w a w' :
  m w = (Done a, w') -> bind m k w = k a w'.
Proof. intros H. unfold bind. by rewrite H. Qed.

Lemma bind_exited {A B} (m : M A) (k : A -> M B) w c w' :
  m w = (Exited c, w') -> bind m k w = (Exited c, w').
Proof. intros H. unfold bind. by rewrite H. Qed.

Lemma bind_assoc {A B C} (m : M A) (f : A -> M B) (k : B -> M C) w :
  bind (bind m f) k w = bind m (fun a => bind (f a) k) w.
Proof. unfold bind. by destruct (m w) as [[a|c|e] w']. Qed.

Lemma run_ret {A B} (a : A) (k : A -> M B) w : bind (ret a) k w = k a w.
Proof. reflexivity. Qed.

Lemma run_print {B} (s : string) (k : unit -> M B) w :
  bind (print s) k w = k tt (World (files w) (stdout w ++ [s])).
Proof. reflexivity. Qed.

Lemma run_exit {A B} (c : Z) (k : A -> M B) w :
  bind (sys_exit c) k w = (Exited c, w).
Proof. reflexivity. Qed.

Lemma run_write {B} (path : string) (data : list Byte.byte)
    (k : unit -> M B) w :
  bind (write_bytes path data) k w
  = k tt (World (<[path := data]> (files w)) (stdout w)).
Proof. reflexivity. Qed.




Ltac step :=
  first [ rewrite run_ret | rewrite run_print | rewrite run_exit
        | rewrite run_write | rewrite bind_assoc ].

Lemma truthy_Some s : s <> ""%string -> truthy (Some s) = true.
Proof. intros H. simpl. by destruct (String.eqb_spec s ""). Qed.

Lemma truthy_true v :
  truthy v = true -> exists s, v = Some s /\ s <> ""%string.
Proof.
  destruct v as [s|]; [|discriminate]. simpl.
  destruct (String.eqb_spec s ""); [discriminate|]. eauto.
Qed.

Lemma path_exists_found w path data :
  files w !! path = Some data -> path_exists path w = (Done true, w).
Proof.
  intros H. unfold path_exists.
  rewrite bool_decide_eq_true_2; [reflexivity | by rewrite H].
Qed.

Lemma path_exists_missing w path :
  files w !! path = None -> path_exists path w = (Done false, w).
Proof.
  intros H. unfold path_exists.
  rewrite bool_decide_eq_false_2; [reflexivity|].
  rewrite H. by intros [? ?].
Qed.

Lemma splitlines_from_nil cur t :
  splitlines_from cur t = [] -> cur = [] /\ t = [].
Proof.
  revert cur. induction t as [|c t IH]; intros cur; simpl.
  - by destruct cur.
  - destruct (is_linebreak c).
    + destruct t as [|c' t']; [discriminate|].
      by destruct ((c =? CR)%N && (c' =? LF)%N).
    + intros H. apply IH in H as [H _]. by destruct cur.
Qed.

Lemma splitlines_nil t : splitlines t = [] -> t = [].
Proof. intros H. by apply splitlines_from_nil in H as [_ ?]. Qed.

(** Splitting keeps every character: the lines, put end to end, are the
    text. *)
Lemma concat_splitlines_bounded (k : nat) : forall (t cur : text),
  (length t <= k)%nat -> concat (splitlines_from cur t) = cur ++ t.
Proof.
  induction k as [|k IH]; intros t cur Hlen.
  - destruct t; [|simpl in Hlen; lia].
    destruct cur; simpl; by rewrite ?app_nil_r.
  - destruct t as [|c t]; simpl.
    { destruct cur; simpl; by rewrite ?app_nil_r. }
    simpl in Hlen. destruct (is_linebreak c).
    + destruct t as [|c' t'].
      * simpl. by rewrite app_nil_r.
      * simpl in Hlen.
        destruct ((c =? CR)%N && (c' =? LF)%N);
          rewrite concat_cons, IH by (simpl; lia); by rewrite <- app_assoc.
    + rewrite IH by lia. by rewrite <- app_assoc.
Qed.

Lemma concat_splitlines (t : text) : concat (splitlines t) = t.
Proof. unfold splitlines. by rewrite (concat_splitlines_bounded (length t)). Qed.

Lemma ensure_final_newline_snoc (init : list text) (l : text) :
  ensure_final_newline (init ++ [l])
  = init ++ [if endswith_newline l then l else l ++ [LF]].
Proof.
  unfold ensure_final_newline. rewrite last_snoc.
  destruct (endswith_newline l); [reflexivity|].
  rewrite length_app. simpl.
  replace (pred (length init + 1)) with (length init + 0)%nat by lia.
  by rewrite insert_app_r.
Qed.

Lemma endswith_newline_normalised (l : text) :
  endswith_newline (if endswith_newline l then l else l ++ [LF]) = true.
Proof.
  destruct (endswith_newline l) eqn:Hl; [assumption|].
  unfold endswith_newline. by rewrite last_snoc.
Qed.

(** *** The files after the writes *)
Lemma write_all_snoc
    (gzip_write : string -> list text -> list Byte.byte)
    name entries entry fs :
  write_all gzip_write name (entries ++ [entry]) fs
  = <[name entry.1 := gzip_write (name entry.1) entry.2]>
      (write_all gzip_write name entries fs).
Proof. unfold write_all. by rewrite foldl_snoc. Qed.


Lemma write_all_lookup
    (gzip_write : string -> list text -> list Byte.byte)
    name entries fs i part_lines :
  NoDup (map (fun entry => name entry.1) entries) ->
  (i, part_lines) ∈ entries ->
  write_all gzip_write name entries fs !! name i
  = Some (gzip_write (name i) part_lines).
Proof.
  induction entries as [|entry entries IH] using rev_ind;
    intros Hnodup Hin.
  - by apply elem_of_nil in Hin.
  - rewrite write_all_snoc.
    rewrite map_app in Hnodup. apply NoDup_app in Hnodup as (Hnd & Hfresh & _).
    apply elem_of_app in Hin as [Hin|Hin].
    + rewrite lookup_insert_ne; [by apply IH|].
      intros Heq. apply (Hfresh (name i)).
      * apply list_elem_of_fmap. by exists (i, part_lines).
      * rewrite <- Heq. set_solver.
    + apply list_elem_of_singleton in Hin as <-. simpl.
      apply lookup_insert_eq.
Qed.

(** *** The lines of a text *)
Lemma is_linebreak_boundary (c : N) :
  is_linebreak c = true <-> line_boundary c.
Proof. unfold is_linebreak, line_boundary. apply bool_decide_eq_true. Qed.

Lemma not_linebreak_boundary (c : N) :
  is_linebreak c = false <-> ~ line_boundary c.
Proof.
  rewrite <- is_linebreak_boundary. by destruct (is_linebreak c).
Qed.

(** [splitlines] cuts the text after every line boundary and nowhere
    else. *)
Lemma lines_of_splitlines_from (k : nat) : forall (t cur : text),
  (length t <= k)%nat ->
  Forall (fun c => ~ line_boundary c) cur ->
  lines_of (cur ++ t) (splitlines_from cur t).
Proof.
  induction k as [|k IH]; intros t cur Hlen Hcur.
  - destruct t; [|simpl in Hlen; lia]. rewrite app_nil_r. simpl.
    destruct cur; [constructor | by apply lines_of_unterminated].
  - destruct t as [|c t].
    { rewrite app_nil_r. simpl.
      destruct cur; [constructor | by apply lines_of_unterminated]. }
    simpl in Hlen. cbn [splitlines_from].
    destruct (is_linebreak c) eqn:Hc.
    + apply is_linebreak_boundary in Hc. destruct t as [|c' t'].
      * change (cur ++ [c]) with (cur ++ [c] ++ []) at 1.
        apply lines_of_boundary; [done | done | done | constructor].
      * destruct ((c =? CR)%N && (c' =? LF)%N) eqn:Hcrlf.
        -- apply andb_prop in Hcrlf as [->%N.eqb_eq ->%N.eqb_eq].
           change (cur ++ CR :: LF :: t') with (cur ++ [13; 10]%N ++ t').
           change (cur ++ [CR; LF]) with (cur ++ [13; 10]%N).
           apply lines_of_crlf; [done|].
           apply (IH t' []); [simpl in Hlen; lia | constructor].
        -- change (cur ++ c :: c' :: t') with (cur ++ [c] ++ c' :: t').
           apply lines_of_boundary; [done | done | |].
           ++ intros -> [= ->]. discriminate Hcrlf.
           ++ apply (IH (c' :: t') []); [simpl in *; lia | constructor].
    + apply not_linebreak_boundary in Hc.
      replace (cur ++ c :: t) with ((cur ++ [c]) ++ t)
        by (by rewrite <- app_assoc).
      apply IH; [lia|]. apply Forall_app. split; [done | by constructor].
Qed.

Lemma lines_of_splitlines (t : text) : lines_of t (splitlines t).
Proof. apply (lines_of_splitlines_from (length t) t []); [lia | constructor]. Qed.

Lemma lines_of_concat (t : text) (ls : list text) :
  lines_of t ls -> concat ls = t.
Proof.
  induction 1 as [|body|body rest ls _ _ IH|body c rest ls _ _ _ _ IH];
    simpl; rewrite ?app_nil_r; try reflexivity.
  - by rewrite IH, <- app_assoc.
  - by rewrite IH, <- app_assoc.
Qed.

(** The first line boundary of a text is where it is. *)
Lemma first_boundary_unique (body : text) :
  forall (body' : text) (c c' : N) (rest rest' : text),
    Forall (fun c => ~ line_boundary c) body ->
    Forall (fun c => ~ line_boundary c) body' ->
    line_boundary c -> line_boundary c' ->
    body ++ c :: rest = body' ++ c' :: rest' ->
    body = body' /\ c = c' /\ rest = rest'.
Proof.
  induction body as [|a body IH];
    intros [|a' body'] c c' rest rest' Hb Hb' Hc Hc' Heq; simpl in Heq.
  - by injection Heq as -> ->.
  - injection Heq as -> _. by apply Forall_inv in Hb'.
  - injection Heq as -> _. by apply Forall_inv in Hb.
  - injection Heq as -> Heq.
    apply Forall_cons in Hb as [_ Hb]. apply Forall_cons in Hb' as [_ Hb'].
    destruct (IH body' c c' rest rest' Hb Hb' Hc Hc' Heq) as (-> & -> & ->).
    done.
Qed.

Lemma no_boundary_inside (body rest : text) (c : N) :
  line_boundary c ->
  ~ Forall (fun c => ~ line_boundary c) (body ++ c :: rest).
Proof.
  intros Hc Hb. apply Forall_app in Hb as [_ Hb].
  by apply Forall_inv in Hb.
Qed.

(** A text has one split into lines only. *)
Lemma lines_of_unique (t : text) (ls : list text) :
  lines_of t ls -> forall ls', lines_of t ls' -> ls = ls'.
Proof.
  assert (line_boundary 13%N) as Hcr by (unfold line_boundary; set_solver).
  induction 1 as [|body Hne Hb|body rest ls Hb _ IH
                  |body c rest ls Hb Hc Hcrlf _ IH];
    intros ls' Hls'.
  - inversion Hls' as [|body' Hne' Hb' Ht|body' rest' ls0 Hb' Hrest' Ht
                       |body' c' rest' ls0 Hb' Hc' Hcrlf' Hrest' Ht];
      try reflexivity; subst; try done;
      by destruct body'.
  - inversion Hls' as [Ht|body' Hne' Hb' Ht|body' rest' ls0 Hb' Hrest' Ht
                       |body' c' rest' ls0 Hb' Hc' Hcrlf' Hrest' Ht];
      subst; try done.
    + by apply (no_boundary_inside _ _ _ Hcr) in Hb.
    + by apply (no_boundary_inside _ _ _ Hc') in Hb.
  - inversion Hls' as [Ht|body' Hne' Hb' Ht|body' rest' ls0 Hb' Hrest' Ht
                       |body' c' rest' ls0 Hb' Hc' Hcrlf' Hrest' Ht].
    + by destruct body.
    + subst. by apply (no_boundary_inside _ _ _ Hcr) in Hb'.
    + apply first_boundary_unique in Ht as (? & ? & ?); try done.
      simplify_eq. f_equal. by apply IH.
    + apply first_boundary_unique in Ht as (? & ? & ?); try done.
      simplify_eq. exfalso. by apply Hcrlf'.
  - inversion Hls' as [Ht|body' Hne' Hb' Ht|body' rest' ls0 Hb' Hrest' Ht
                       |body' c' rest' ls0 Hb' Hc' Hcrlf' Hrest' Ht].
    + by destruct body.
    + subst. by apply (no_boundary_inside _ _ _ Hc) in Hb'.
    + apply first_boundary_unique in Ht as (? & ? & ?); try done.
      simplify_eq. exfalso. by apply Hcrlf.
    + apply first_boundary_unique in Ht as (? & ? & ?); try done.
      simplify_eq. f_equal. by apply IH.
Qed.

Section Main.

Variable int_of_str : string -> Z + string.
Variable gzip_decompress : list Byte.byte -> option (list Byte.byte).
Variable gzipfile_read : list Byte.byte -> list Byte.byte + exn.
Variable utf8_decode : list Byte.byte -> text.
Variable gzip_write : string -> list text -> list Byte.byte.
Variable fmt_mb : Z -> string.
Variable fmt_avg_mb : list Z -> string.
Variable makedirs_refused :
  gmap string (list Byte.byte) -> string -> option exn.
Variable write_failure :
  gmap string (list Byte.byte) -> string -> list Byte.byte
  -> option (exn * option (list Byte.byte)).

Local Abbreviation main :=
  (SplitData.main int_of_str gzip_decompress gzipfile_read utf8_decode
     gzip_write fmt_mb fmt_avg_mb makedirs_refused write_failure).
Local Abbreviation valid_arguments := (Invocation.valid_arguments int_of_str).
Local Abbreviation decoded_lines :=
  (Invocation.decoded_lines gzip_decompress gzipfile_read utf8_decode).
Local Abbreviation rejected :=
  (Invocation.rejected int_of_str gzip_decompress gzipfile_read utf8_decode).

Lemma parse_n_files_accepts s n w :
  int_of_str s = inl n -> 1 <= n ->
  parse_n_files int_of_str s w = (Done n, w).
Proof.
  intros Hs Hn. unfold parse_n_files. rewrite Hs.
  by destruct (Z.ltb_spec n 1); [lia|].
Qed.

Lemma parse_n_files_rejects s w :
  (forall n, int_of_str s = inl n -> n < 1) ->
  exists err, String.prefix "Error: " err = true /\
    prints (parse_n_files int_of_str s) w (Exited 1) [err].
Proof.
  intros Hs. unfold parse_n_files, prints.
  destruct (int_of_str s) as [n|e].
  - specialize (Hs n eq_refl). destruct (Z.ltb_spec n 1); [|lia].
    eexists. split; [|reflexivity]. reflexivity.
  - eexists. split; [|reflexivity]. reflexivity.
Qed.

Lemma read_file_lines_decoded w input_file lines :
  decoded_lines (files w) input_file = Some lines ->
  read_file_lines gzip_decompress gzipfile_read utf8_decode input_file w
  = (Done lines, w).
Proof.
  unfold Invocation.decoded_lines, read_file_lines, bind, read_bytes.
  destruct (files w !! input_file) as [compressed|]; [|discriminate].
  destruct (gunzip _ _ compressed) as [raw|]; [|discriminate].
  intros [= <-]. reflexivity.
Qed.

Lemma decoded_lines_exists fs input_file lines :
  decoded_lines fs input_file = Some lines -> is_Some (fs !! input_file).
Proof.
  unfold Invocation.decoded_lines.
  destruct (fs !! input_file); [eauto | discriminate].
Qed.

(** C8. When the file is there, decompresses and decodes to a non-empty
    text, the line reader returns the lines of that text with the last one
    normalised.  The text is split into lines [init ++ [l]]: cut after
    every line boundary and nowhere else, so that the lines, put end to
    end, are the text.  The reader returns every line but the last as it
    is, and the last one as it is when it ends with a line feed and with a
    line feed appended otherwise, so that the last line returned always
    ends with a line feed. *)
Theorem read_file_lines_normalises (w : world) (filepath : string)
    (compressed_data raw : list Byte.byte) :
  files w !! filepath = Some compressed_data ->
  gunzip gzip_decompress gzipfile_read compressed_data = inl raw ->
  utf8_decode raw <> [] ->
  exists (init : list text) (l l' : text),
    lines_of (utf8_decode raw) (init ++ [l])
    /\ concat (init ++ [l]) = utf8_decode raw
    /\ read_file_lines gzip_decompress gzipfile_read utf8_decode filepath w
       = (Done (init ++ [l']), w)
    /\ (last l = Some LF -> l' = l)
    /\ (last l <> Some LF -> l' = l ++ [LF])
    /\ last l' = Some LF.
Proof.
  intros Hfile Hgz Htext.
  pose proof (lines_of_splitlines (utf8_decode raw)) as Hlines.
  destruct (splitlines (utf8_decode raw)) as [|l init _] eqn:Hsplit
    using rev_ind.
  { by apply splitlines_nil in Hsplit. }
  exists init, l, (if endswith_newline l then l else l ++ [LF]).
  split; [assumption|]. split; [by apply lines_of_concat|]. split.
  { rewrite <- ensure_final_newline_snoc, <- Hsplit.
    apply read_file_lines_decoded. unfold Invocation.decoded_lines.
    by rewrite Hfile, Hgz. }
  unfold endswith_newline.
  destruct (last l) as [c|] eqn:Hlast.
  - destruct (N.eqb_spec c LF) as [->|Hc].
    + split; [done|]. split; [done | assumption].
    + split; [by intros [= ->]|]. split; [done | by rewrite last_snoc].
  - split; [done|]. split; [done | by rewrite last_snoc].
Qed.

(** The run of [main] up to the emptiness test, for an accepted command
    line and a readable input. *)
Ltac open_validation argv Hvalid Hlines :=
  destruct Hvalid
    as [[Hin Hin'] [Hout Hout'] (n_files & Hn & Hn' & Hint & Hpos)];
  destruct (parse_arguments_run argv) as (warnings & Hwarn & Hparse);
  destruct (decoded_lines_exists _ _ _ Hlines) as [data Hdata].

Ltac run_validation Hparse Hin Hout Hn :=
  unfold SplitData.main;
  erewrite bind_done by apply Hparse;
  rewrite Hin, Hout, Hn; rewrite !truthy_Some by assumption;
  cbn [negb when default from_option id]; rewrite !run_ret;
  erewrite bind_done by (by apply parse_n_files_accepts);
  erewrite bind_done by (by eapply path_exists_found);
  cbn [negb when]; rewrite run_ret, run_print;
  erewrite bind_done by (by apply read_file_lines_decoded);
  rewrite run_print.

(** C6. An accepted command line whose input file decodes to zero lines
    makes the process exit with code 1; the last line it prints is
    "Error: Input file is empty", and the files are as they were. *)
Theorem main_empty_input (argv : list string) (w : world)
    (input_file output_path : string) (n : Z) :
  valid_arguments argv input_file output_path n ->
  decoded_lines (files w) input_file = Some [] ->
  exists out,
    prints (main argv) w (Exited 1)
      (out ++ ["Error: Input file is empty"%string]).
Proof.
  intros Hvalid Hlines. open_validation argv Hvalid Hlines.
  exists (warnings ++ [("Reading " ++ input_file ++ "...")%string;
                       ("Total lines: " ++ Str.fmt_comma 0)%string]).
  unfold prints. run_validation Hparse Hin Hout Hn.
  change (len (@nil text) =? 0) with true. cbn [when].
  repeat step. cbn [files stdout].
  rewrite <- !app_assoc. reflexivity.
Qed.

Lemma usage_not_warning (warnings : list string) :
  Forall is_warning warnings -> usage ∉ warnings.
Proof.
  intros Hw Hin. rewrite Forall_forall in Hw.
  apply Hw in Hin. discriminate Hin.
Qed.

(** C7, as the code has it. A rejected invocation (a required argument
    missing or empty, an [n_files] that is not an integer >= 1, a missing
    input file, or an input that decodes to zero lines) makes the process
    exit with code 1 with the files as they were; it prints a line starting
    with "Error: ", followed by the usage line exactly when a required
    argument is missing, and no usage line before that. *)
Theorem main_rejects (argv : list string) (w : world) :
  rejected argv (files w) ->
  exists before err,
    prints (main argv) w (Exited 1)
      (before ++ err :: (if all_required (arguments argv) then []
                         else [usage]))
    /\ String.prefix "Error: " err = true
    /\ usage ∉ before.
Proof.
  intros Hrej.
  destruct (parse_arguments_run argv) as (warnings & Hwarn & Hparse).
  pose proof (usage_not_warning _ Hwarn) as Husage.
  unfold prints, SplitData.main. erewrite bind_done by apply Hparse.
  unfold all_required, required. cbn [forallb].
  destruct (truthy (arguments argv !! "input_file"%string)) eqn:Hin.
  2:{ exists warnings, "Error: input_file is required"%string.
      split; [|by split].
      cbn [negb when andb]. repeat step. cbn [files stdout].
      by rewrite <- !app_assoc. }
  destruct (truthy (arguments argv !! "output_path"%string)) eqn:Hout.
  2:{ exists warnings, "Error: output_path is required"%string.
      split; [|by split].
      cbn [negb when andb]. repeat step. cbn [files stdout].
      by rewrite <- !app_assoc. }
  destruct (truthy (arguments argv !! "n_files"%string)) eqn:Hn.
  2:{ exists warnings, "Error: n_files is required"%string.
      split; [|by split].
      cbn [negb when andb]. repeat step. cbn [files stdout].
      by rewrite <- !app_assoc. }
  cbn [negb when andb]. rewrite !run_ret.
  pose proof Hin as Hin'. pose proof Hn as Hn'.
  apply truthy_true in Hin' as (input_file & Hinput & Hinput_ne).
  apply truthy_true in Hn' as (n_files & Hn_files & Hn_ne).
  rewrite Hinput, Hn_files. cbn [default from_option id].
  assert ((exists n, int_of_str n_files = inl n /\ 1 <= n)
          \/ (forall n, int_of_str n_files = inl n -> n < 1)) as [Hok|Hbad].
  { destruct (int_of_str n_files) as [n|e].
    - destruct (Z.lt_ge_cases n 1); [right|left].
      + by intros ? [= <-].
      + eauto.
    - right. intros ? [=]. }
  2:{ destruct (parse_n_files_rejects n_files
                  (World (files w) (stdout w ++ warnings)) Hbad)
        as (err & Herr & Hrun).
      exists warnings, err. split; [|by split].
      erewrite bind_exited by apply Hrun. cbn [files stdout].
      by rewrite <- !app_assoc. }
  destruct Hok as (n & Hint & Hpos).
  erewrite bind_done by (by apply parse_n_files_accepts).
  destruct (files w !! input_file) as [data|] eqn:Hdata.
  2:{ exists warnings,
        ("Error: Input file '" ++ input_file ++ "' does not exist")%string.
      split; [|by split].
      erewrite bind_done by (by apply path_exists_missing).
      cbn [negb when]. repeat step. cbn [files stdout].
      by rewrite <- !app_assoc. }
  assert (decoded_lines (files w) input_file = Some []) as Hlines.
  { destruct Hrej as [Hmiss|s Hs Hneg|p Hp Hnone|p Hp Hempty].
    - unfold all_required, required in Hmiss. cbn [forallb] in Hmiss.
      by rewrite Hin, Hout, Hn in Hmiss.
    - rewrite Hn_files in Hs. injection Hs as <-.
      specialize (Hneg n Hint). lia.
    - rewrite Hinput in Hp. injection Hp as <-. congruence.
    - rewrite Hinput in Hp. by injection Hp as <-. }
  exists (warnings ++ [("Reading " ++ input_file ++ "...")%string;
                       ("Total lines: " ++ Str.fmt_comma 0)%string]),
    "Error: Input file is empty"%string.
  split; [|split; [reflexivity|]].
  - erewrite bind_done by (by eapply path_exists_found).
    cbn [negb when]. rewrite run_ret, run_print.
    erewrite bind_done by (by apply read_file_lines_decoded).
    rewrite run_print.
    change (len (@nil text) =? 0) with true. cbn [when].
    repeat step. cbn [files stdout].
    by rewrite <- !app_assoc.
  - rewrite not_elem_of_app. split; [assumption|].
    rewrite !not_elem_of_cons. repeat split; try discriminate.
    apply not_elem_of_nil.
Qed.

(** *** The writing loop *)
Local Abbreviation write_part :=
  (SplitData.write_part gzip_write fmt_mb makedirs_refused write_failure).
Local Abbreviation writes_allowed :=
  (Invocation.writes_allowed gzip_write makedirs_refused write_failure).


Lemma part_file_name_inj output_path base_filename extension (i j : Z) :
  0 <= i -> 0 <= j ->
  part_file_name output_path base_filename extension i
  = part_file_name output_path base_filename extension j ->
  i = j.
Proof.
  intros Hi Hj Heq. unfold part_file_name in Heq.
  do 3 apply String.app_inj in Heq.
  apply StrFacts.string_app_inv_tail in Heq.
  by apply StrFacts.fmt_02d_inj.
Qed.

Lemma elem_of_enumerate1 {A} (xs : list A) (i : Z) (x : A) :
  (i, x) ∈ enumerate1 xs <->
  exists k : nat, i = Z.of_nat k + 1 /\ xs !! k = Some x.
Proof.
  unfold enumerate1. rewrite elem_of_lookup_imap. split.
  - intros (k & y & [= -> ->] & Hk). eauto.
  - intros (k & -> & Hk). eauto.
Qed.

Lemma enumerate1_names_NoDup {A} (name : Z -> string) (xs : list A) :
  (forall i j, 0 <= i -> 0 <= j -> name i = name j -> i = j) ->
  NoDup (map (fun entry => name entry.1) (enumerate1 xs)).
Proof.
  intros Hinj. apply NoDup_alt. intros i j path Hi Hj.
  unfold enumerate1 in Hi, Hj.
  rewrite list_lookup_fmap, list_lookup_imap in Hi, Hj.
  destruct (xs !! i); [|discriminate]. destruct (xs !! j); [|discriminate].
  simpl in Hi, Hj. injection Hi as <-. injection Hj as Hj.
  apply Hinj in Hj; lia.
Qed.


End Main.

(** *** Runs of the sample library *)
Local Open Scope string_scope.

Lemma sample_valid_arguments :
  Invocation.valid_arguments Sample.int_of_str (Sample.argv "2")
    "in/cells.tsv.gz" "out" 2.
Proof.
  split.
  - split; [reflexivity | discriminate].
  - split; [reflexivity | discriminate].
  - exists "2". repeat split; [discriminate | lia].
Defined.

Lemma main_empty_input_witness :
  exists out,
    prints (Sample.split_data (Sample.argv "2")) (Sample.world "") (Exited 1)
      (out ++ ["Error: Input file is empty"]).
Proof.
  apply (main_empty_input Sample.int_of_str Sample.gzip_decompress
           Sample.gzipfile_read Sample.utf8_decode Sample.gzip_write
           Sample.fmt_mb Sample.fmt_avg_mb
           Sample.makedirs_refused Sample.write_failure (Sample.argv "2") (Sample.world "")
           "in/cells.tsv.gz" "out" 2).
  - exact sample_valid_arguments.
  - reflexivity.
Defined.

Lemma sample_rejected :
  Invocation.rejected Sample.int_of_str Sample.gzip_decompress
    Sample.gzipfile_read Sample.utf8_decode (Sample.argv "0")
    (files (Sample.world ("h" ++ NL ++ "a" ++ NL))).
Proof.
  apply (Invocation.bad_n_files _ _ _ _ _ _ "0"); [reflexivity|].
  intros n [= <-]. lia.
Defined.

Lemma main_rejects_witness :
  let w := Sample.world ("h" ++ NL ++ "a" ++ NL) in
  exists before err,
    prints (Sample.split_data (Sample.argv "0")) w (Exited 1)
      (before ++ err :: (if all_required (arguments (Sample.argv "0"))
                         then [] else [usage]))
    /\ String.prefix "Error: " err = true
    /\ usage ∉ before.
Proof.
  intros w.
  apply (main_rejects Sample.int_of_str Sample.gzip_decompress
           Sample.gzipfile_read Sample.utf8_decode Sample.gzip_write
           Sample.fmt_mb Sample.fmt_avg_mb
           Sample.makedirs_refused Sample.write_failure (Sample.argv "0") w).
  exact sample_rejected.
Defined.

(** C7 fails as stated: with [n_files=0] the invocation is rejected, the
    process exits with code 1 and the files are untouched, but the only
    line printed is the error; the usage line is not printed. *)
Lemma main_bad_n_files_prints_no_usage :
  let w := Sample.world ("h" ++ NL ++ "a" ++ NL) in
  Invocation.rejected Sample.int_of_str Sample.gzip_decompress
    Sample.gzipfile_read Sample.utf8_decode (Sample.argv "0") (files w)
  /\ Sample.split_data (Sample.argv "0") w
     = (Exited 1,
        World (files w)
          ["Error: n_files must be a positive integer: n_files must be at least 1"])
  /\ usage ∉ ["Error: n_files must be a positive integer: n_files must be at least 1"].
Proof.
  intros w. split; [exact sample_rejected|]. split.
  - vm_compute. reflexivity.
  - intros Hin. apply list_elem_of_singleton in Hin. discriminate Hin.
Qed.

Lemma read_file_lines_normalises_witness :
  let content := "h" ++ String "013" NL ++ "a" ++ NL ++ "b" in
  let w := Sample.world content in
  exists (init : list text) (l l' : text),
    lines_of (Sample.utf8_decode (Sample.bytes_of content)) (init ++ [l])%list
    /\ concat (init ++ [l]) = Sample.utf8_decode (Sample.bytes_of content)
    /\ read_file_lines Sample.gzip_decompress Sample.gzipfile_read
         Sample.utf8_decode "in/cells.tsv.gz" w
       = (Done (init ++ [l'])%list, w)
    /\ (last l = Some LF -> l' = l)
    /\ (last l <> Some LF -> l' = (l ++ [LF])%list)
    /\ last l' = Some LF.
Proof.
  intros content w.
  apply (read_file_lines_normalises Sample.gzip_decompress
           Sample.gzipfile_read Sample.utf8_decode w "in/cells.tsv.gz"
           (Sample.bytes_of content) (Sample.bytes_of content)).
  - reflexivity.
  - reflexivity.
  - discriminate.
Defined.



End MainFacts.

(** ** The shuffle/shard partitioner *)
Module ShardFacts.

Import Py PyFacts ConvertToParquet.

Section Rows.

Context {row : Type}.

Lemma mapM_omap {A B} (f : A -> option B) (l : list A) (k : list B) :
  mapM f l = Some k -> k = omap f l.
Proof.
  intros H. apply mapM_Some_1 in H.
  induction H as [|x y l k Hxy _ IH]; [reflexivity|].
  simpl. rewrite Hxy. simpl. by f_equal.
Qed.

Lemma omap_lookup_seq (pre df : list row) :
  omap (fun i => (pre ++ df) !! i) (seq (length pre) (length df)) = df.
Proof.
  revert pre. induction df as [|r df IH]; intros pre; [reflexivity|].
  simpl. rewrite list_lookup_middle by reflexivity. simpl. f_equal.
  specialize (IH (pre ++ [r])).
  rewrite <- app_assoc, length_app in IH. simpl in IH.
  by rewrite Nat.add_1_r in IH.
Qed.

(** Reordering by a permutation of the positions loses and repeats no row. *)
Lemma iloc_permutation (df : list row) (indices : list nat) :
  indices ≡ₚ seq 0 (length df) ->
  exists df_shuffled,
    iloc df indices = Some df_shuffled
    /\ df_shuffled ≡ₚ df
    /\ length df_shuffled = length df.
Proof.
  intros Hperm.
  assert (is_Some (iloc df indices)) as [df_shuffled Hiloc].
  { apply mapM_is_Some_2, Forall_forall. intros i Hi.
    rewrite Hperm in Hi. apply elem_of_seq in Hi.
    apply lookup_lt_is_Some. lia. }
  exists df_shuffled. split; [assumption|].
  assert (df_shuffled ≡ₚ df) as Hrows.
  { apply mapM_omap in Hiloc as ->. rewrite Hperm.
    pose proof (omap_lookup_seq [] df) as Hall. simpl in Hall.
    by rewrite Hall. }
  split; [assumption|]. by rewrite Hrows.
Qed.

(** The slices of the sharding loop: the first [num_shards - 1] have
    [rows_per_shard] rows each and the last takes what is left. *)
Lemma shards_concat (df_shuffled : list row) (prefix : string)
    (num_shards : Z) :
  1 <= num_shards ->
  let total_rows := len df_shuffled in
  let rows_per_shard := total_rows / num_shards in
  concat (map shard_rows
            (map (make_shard df_shuffled prefix num_shards total_rows
                    rows_per_shard)
               (range num_shards)))
  = df_shuffled.
Proof.
  intros Hn total_rows rows_per_shard.
  pose proof (len_nonneg df_shuffled) as Hlen. fold total_rows in Hlen.
  assert (0 <= rows_per_shard) as Hq by (apply Z.div_pos; lia).
  assert (num_shards * rows_per_shard <= total_rows) as Hfit
    by (apply Z.mul_div_le; lia).
  unfold range.
  replace (Z.to_nat num_shards) with (Z.to_nat (num_shards - 1) + 1)%nat
    by lia.
  rewrite seq_app, !map_app, concat_app. simpl. rewrite app_nil_r.
  replace (_ =? _) with true by (symmetry; apply Z.eqb_eq; lia).
  rewrite Z2Nat.id by lia.
  transitivity (slice df_shuffled 0 ((num_shards - 1) * rows_per_shard)
                ++ slice df_shuffled ((num_shards - 1) * rows_per_shard)
                     total_rows).
  - f_equal. rewrite !map_map.
    rewrite (map_ext_in _
               (fun i => slice df_shuffled (Z.of_nat i * rows_per_shard)
                           ((Z.of_nat i + 1) * rows_per_shard))).
    2:{ intros i Hi%in_seq. unfold make_shard. simpl.
        by replace (_ =? _) with false by (symmetry; apply Z.eqb_neq; lia). }
    rewrite <- (map_map Z.of_nat
                  (fun i => slice df_shuffled (i * rows_per_shard)
                              ((i + 1) * rows_per_shard))).
    rewrite (concat_slices df_shuffled (fun i => i * rows_per_shard)).
    + simpl. by rewrite Z2Nat.id by lia.
    + lia.
    + intros i _. nia.
    + rewrite Nat.add_0_l, Z2Nat.id by lia. fold total_rows. nia.
  - rewrite slice_app; [apply slice_all| | |]; fold total_rows; nia.
Qed.

End Rows.

Section Shuffle.

Variable rng : Type.
Variable rng_seed : Z -> option rng.
Variable rng_permutation : rng -> nat -> list nat * rng.
Context {row : Type}.

Local Abbreviation shuffle_and_shard :=
  (ConvertToParquet.shuffle_and_shard rng rng_seed rng_permutation).
Local Abbreviation draws_permutations :=
  (ConvertToParquet.draws_permutations rng rng_permutation).

(** The run with an accepted seed and a positive shard count, laid open. *)
Lemma shuffle_and_shard_run (df : list row) (prefix : string)
    (num_shards seed : Z) (g : rng) :
  draws_permutations -> is_Some (rng_seed seed) -> 1 <= num_shards ->
  exists df_shuffled,
    df_shuffled ≡ₚ df
    /\ len df_shuffled = len df
    /\ (shuffle_and_shard df prefix num_shards seed g).1
       = inr (map (make_shard df_shuffled prefix num_shards (len df)
                     (len df / num_shards))
                (range num_shards)).
Proof.
  intros Hperm [g1 Hseed] Hn. unfold ConvertToParquet.shuffle_and_shard.
  rewrite Hseed. specialize (Hperm g1 (length df)).
  destruct (rng_permutation g1 (length df)) as [indices g2]. simpl in Hperm.
  destruct (iloc_permutation df indices Hperm)
    as (df_shuffled & -> & Hrows & Hlength).
  exists df_shuffled.
  assert (len df_shuffled = len df) as Hlen by (unfold len; lia).
  split; [assumption|]. split; [assumption|].
  destruct (Z.eqb_spec num_shards 0); [lia|]. simpl. by rewrite Hlen.
Qed.

(** C1. With a generator that draws permutations, an accepted seed and at
    least one shard, the run succeeds and the rows of all shards, taken
    together in shard order, are the input rows, each exactly as often as
    in the input: no row is lost and none is repeated. *)
Theorem shuffle_and_shard_partition (df : list row) (prefix : string)
    (num_shards seed : Z) (g : rng) :
  draws_permutations -> is_Some (rng_seed seed) -> 1 <= num_shards ->
  exists shards,
    (shuffle_and_shard df prefix num_shards seed g).1 = inr shards
    /\ concat (map shard_rows shards) ≡ₚ df.
Proof.
  intros Hperm Hseed Hn.
  destruct (shuffle_and_shard_run df prefix num_shards seed g Hperm Hseed Hn)
    as (df_shuffled & Hrows & Hlen & Hrun).
  eexists. split; [exact Hrun|].
  rewrite <- Hlen, shards_concat; assumption.
Qed.

(** C2. For R rows and N >= 1 shards the run succeeds with N shards; each
    of the first N - 1 has R // N rows and the last has R // N + R % N
    (so with R < N the first N - 1 shards are empty). *)
Theorem shuffle_and_shard_sizes (df : list row) (prefix : string)
    (num_shards seed : Z) (g : rng) :
  draws_permutations -> is_Some (rng_seed seed) -> 1 <= num_shards ->
  let R := len df in
  exists shards,
    (shuffle_and_shard df prefix num_shards seed g).1 = inr shards
    /\ length shards = Z.to_nat num_shards
    /\ forall (k : nat) (s : shard row),
         shards !! k = Some s ->
         len (shard_rows s)
         = if Z.of_nat k =? num_shards - 1
           then R / num_shards + R mod num_shards
           else R / num_shards.
Proof.
  intros Hperm Hseed Hn R.
  destruct (shuffle_and_shard_run df prefix num_shards seed g Hperm Hseed Hn)
    as (df_shuffled & Hrows & Hlen & Hrun).
  fold R in Hlen, Hrun.
  eexists. split; [exact Hrun|].
  split; [by rewrite length_map, length_range|].
  intros k s Hs. rewrite list_lookup_fmap in Hs.
  destruct (range num_shards !! k) as [i|] eqn:Hi; [|discriminate].
  assert (k < Z.to_nat num_shards)%nat as Hk.
  { apply lookup_lt_Some in Hi. by rewrite length_range in Hi. }
  rewrite range_lookup in Hi by assumption.
  injection Hi as <-. injection Hs as <-. simpl.
  pose proof (len_nonneg df) as HR. fold R in HR.
  assert (0 <= R / num_shards) as Hq by (apply Z.div_pos; lia).
  assert (num_shards * (R / num_shards) <= R) as Hfit
    by (apply Z.mul_div_le; lia).
  pose proof (Z.div_mod R num_shards ltac:(lia)) as Hdiv.
  destruct (Z.eqb_spec (Z.of_nat k) (num_shards - 1)) as [Hlast|Hnot].
  - rewrite length_slice_in_range by nia. nia.
  - rewrite length_slice_in_range by nia. nia.
Qed.

(** C5. Two runs on the same rows with the same seed produce the same
    outcome, shard by shard and row by row, whatever state the global
    generator was in before each run: the seed alone fixes the
    permutation. *)
Theorem shuffle_and_shard_deterministic (df : list row) (prefix : string)
    (num_shards seed : Z) (g g' : rng) :
  (shuffle_and_shard df prefix num_shards seed g).1
  = (shuffle_and_shard df prefix num_shards seed g').1.
Proof.
  unfold ConvertToParquet.shuffle_and_shard.
  destruct (rng_seed seed) as [g1|]; [|reflexivity].
  destruct (rng_permutation g1 (length df)) as [indices g2].
  reflexivity.
Qed.

End Shuffle.

(** *** Runs with the sample generator *)
Lemma sample_draws_permutations :
  ConvertToParquet.draws_permutations Sample.rng Sample.rng_permutation.
Proof.
  intros g n. unfold Sample.rng_permutation. simpl.
  rewrite Permutation_app_comm. by rewrite take_drop.
Qed.

Lemma shuffle_and_shard_partition_witness :
  let df := [10; 11; 12; 13; 14; 15; 16]%nat in
  exists shards,
    (ConvertToParquet.shuffle_and_shard Sample.rng Sample.rng_seed
       Sample.rng_permutation df OUTPUT_PREFIX 3 RANDOM_SEED 0).1
    = inr shards
    /\ concat (map shard_rows shards) ≡ₚ df.
Proof.
  intros df.
  apply (shuffle_and_shard_partition Sample.rng Sample.rng_seed
           Sample.rng_permutation df OUTPUT_PREFIX 3 RANDOM_SEED 0).
  - exact sample_draws_permutations.
  - by exists 42.
  - lia.
Defined.

(** Two rows in three shards: the first two shards are empty. *)
Lemma shuffle_and_shard_sizes_witness :
  let df := [10; 11]%nat in
  exists shards,
    (ConvertToParquet.shuffle_and_shard Sample.rng Sample.rng_seed
       Sample.rng_permutation df OUTPUT_PREFIX 3 RANDOM_SEED 0).1
    = inr shards
    /\ length shards = Z.to_nat 3
    /\ forall (k : nat) (s : shard nat),
         shards !! k = Some s ->
         len (shard_rows s)
         = if Z.of_nat k =? 3 - 1 then len df / 3 + len df mod 3
           else len df / 3.
Proof.
  intros df.
  apply (shuffle_and_shard_sizes Sample.rng Sample.rng_seed
           Sample.rng_permutation df OUTPUT_PREFIX 3 RANDOM_SEED 0).
  - exact sample_draws_permutations.
  - by exists 42.
  - lia.
Defined.

(** The example of the specification, scaled down: 20 rows in
    [NUM_SHARDS] shards of two rows each. *)
Example shuffle_20_rows :
  (fun r => match r with
            | inr shards => Some (map shard_rows shards)
            | inl _ => None
            end)
    (ConvertToParquet.shuffle_and_shard Sample.rng Sample.rng_seed
       Sample.rng_permutation (seq 0 20) OUTPUT_PREFIX NUM_SHARDS
       RANDOM_SEED 0).1
  = Some [[2; 3]; [4; 5]; [6; 7]; [8; 9]; [10; 11]; [12; 13]; [14; 15];
          [16; 17]; [18; 19]; [0; 1]]%nat.
Proof. vm_compute. reflexivity. Qed.

End ShardFacts.

(** ** The type optimizer *)
Module OptimizeFacts.

Import ConvertToParquet.




Section Optimize.

Variables F64 F32 : Type.
Variable narrow : F64 -> F32.
Variable astype_other : dtype -> column F64 F32 -> option (column F64 F32).

Local Abbreviation column := (ConvertToParquet.column F64 F32).
Local Abbreviation astype := (ConvertToParquet.astype F64 F32 narrow astype_other).
Local Abbreviation convert := (ConvertToParquet.convert F64 F32 narrow astype_other).
Local Abbreviation convert_all :=
  (ConvertToParquet.convert_all F64 F32 narrow astype_other).
Local Abbreviation optimize_dtypes :=
  (ConvertToParquet.optimize_dtypes F64 F32 narrow astype_other).
Local Abbreviation casts_succeed :=
  (ConvertToParquet.casts_succeed F64 F32 narrow astype_other).


Lemma convert_lookup target (df df' : gmap string column) col0 col :
  convert target df col0 = Some df' ->
  df' !! col
  = if decide (col = col0) then df !! col ≫= astype target else df !! col.
Proof.
  unfold ConvertToParquet.convert.
  destruct (df !! col0) as [c|] eqn:Hc.
  - destruct (astype target c) as [c'|] eqn:Hcast; [|discriminate].
    intros [= <-]. destruct (decide (col = col0)) as [->|Hne].
    + rewrite lookup_insert_eq, Hc. simpl. by rewrite Hcast.
    + by rewrite lookup_insert_ne.
  - intros [= <-]. destruct (decide (col = col0)) as [->|]; [|reflexivity].
    by rewrite Hc.
Qed.

(** After one of the loops, a column named in the list holds its cast and
    every other column is as before. *)
Lemma convert_all_lookup target cols : forall (df df' : gmap string column) col,
  NoDup cols ->
  convert_all target df cols = Some df' ->
  df' !! col
  = if decide (col ∈ cols) then df !! col ≫= astype target else df !! col.
Proof.
  induction cols as [|col0 cols IH]; intros df df' col Hnodup;
    cbn [ConvertToParquet.convert_all].
  - intros [= <-]. by rewrite decide_False by apply not_elem_of_nil.
  - apply NoDup_cons in Hnodup as [Hfresh Hnodup].
    destruct (convert target df col0) as [df1|] eqn:Hstep; [|discriminate].
    intros Hrest. rewrite (IH df1 df' col Hnodup Hrest).
    rewrite (convert_lookup target df df1 col0 col Hstep).
    destruct (decide (col = col0)) as [->|Hne].
    + rewrite decide_False by assumption.
      by rewrite decide_True by apply list_elem_of_here.
    + destruct (decide (col ∈ cols)) as [Hin|Hout].
      * by rewrite decide_True by (by apply list_elem_of_further).
      * rewrite decide_False; [reflexivity|].
        by intros [?|?]%elem_of_cons.
Qed.

Lemma convert_all_succeeds target cols : forall (df : gmap string column),
  NoDup cols ->
  (forall col c, col ∈ cols -> df !! col = Some c -> is_Some (astype target c)) ->
  is_Some (convert_all target df cols).
Proof.
  induction cols as [|col0 cols IH]; intros df Hnodup Hcasts; simpl.
  - eauto.
  - apply NoDup_cons in Hnodup as [Hfresh Hnodup].
    assert (is_Some (convert target df col0)) as [df1 Hstep].
    { unfold ConvertToParquet.convert.
      destruct (df !! col0) as [c|] eqn:Hc; [|eauto].
      destruct (Hcasts col0 c (list_elem_of_here _ _) Hc) as [c' ->]. eauto. }
    rewrite Hstep. apply IH; [assumption|].
    intros col c Hcol Hc.
    rewrite (convert_lookup target df df1 col0 col Hstep) in Hc.
    destruct (decide (col = col0)) as [->|]; [done|].
    apply (Hcasts col c); [by apply list_elem_of_further | assumption].
Qed.

Lemma columns_NoDup (target : dtype) : NoDup (columns_of target).
Proof. destruct target; compute_done. Qed.

Lemma columns_disjoint (t1 t2 : dtype) (col : string) :
  col ∈ columns_of t1 -> col ∈ columns_of t2 -> t1 = t2.
Proof.
  assert (Forall (fun t1 => Forall (fun t2 =>
            Forall (fun c => c ∈ columns_of t2 -> t1 = t2) (columns_of t1))
            [float32; int16; category]) [float32; int16; category]) as Hall.
  { repeat constructor; intros Hin; try reflexivity;
      exfalso; revert Hin; compute_done. }
  intros H1 H2. rewrite !Forall_forall in Hall.
  assert (forall t, t ∈ [float32; int16; category]) as Hdt
    by (intros []; set_solver).
  specialize (Hall t1 (Hdt t1)). rewrite Forall_forall in Hall.
  specialize (Hall t2 (Hdt t2)). rewrite Forall_forall in Hall.
  by apply (Hall col).
Qed.

(** What [optimize_dtypes] leaves under each name: the cast of the column
    for a listed name, the column itself for any other. *)
Lemma optimize_dtypes_lookup (df df' : gmap string column) (col : string) :
  optimize_dtypes df = Some df' ->
  (forall target, col ∈ columns_of target ->
     df' !! col = df !! col ≫= astype target)
  /\ ((forall target, col ∉ columns_of target) -> df' !! col = df !! col).
Proof.
  unfold ConvertToParquet.optimize_dtypes.
  destruct (convert_all float32 df FLOAT32_COLUMNS) as [df1|] eqn:H1;
    [|discriminate].
  destruct (convert_all int16 df1 INT16_COLUMNS) as [df2|] eqn:H2;
    [|discriminate].
  intros H3.
  apply (convert_all_lookup _ _ _ _ col (columns_NoDup float32)) in H1.
  apply (convert_all_lookup _ _ _ _ col (columns_NoDup int16)) in H2.
  apply (convert_all_lookup _ _ _ _ col (columns_NoDup category)) in H3.
  cbn [columns_of] in H1, H2, H3. rewrite H3, H2, H1. clear H1 H2 H3. split.
  - intros target Hcol.
    assert (forall t, t <> target -> col ∉ columns_of t) as Hother.
    { intros t Hne Hin. apply Hne. by apply (columns_disjoint t target col). }
    destruct target; cbn [columns_of] in Hcol.
    + rewrite (decide_False (P := col ∈ CATEGORICAL_COLUMNS))
        by (by apply (Hother category)).
      rewrite (decide_False (P := col ∈ INT16_COLUMNS))
        by (by apply (Hother int16)).
      by rewrite decide_True by assumption.
    + rewrite (decide_False (P := col ∈ CATEGORICAL_COLUMNS))
        by (by apply (Hother category)).
      rewrite (decide_True (P := col ∈ INT16_COLUMNS)) by assumption.
      by rewrite decide_False by (by apply (Hother float32)).
    + rewrite (decide_True (P := col ∈ CATEGORICAL_COLUMNS)) by assumption.
      rewrite (decide_False (P := col ∈ INT16_COLUMNS))
        by (by apply (Hother int16)).
      by rewrite decide_False by (by apply (Hother float32)).
  - intros Hnone.
    rewrite (decide_False (P := col ∈ CATEGORICAL_COLUMNS))
      by apply (Hnone category).
    rewrite (decide_False (P := col ∈ INT16_COLUMNS)) by apply (Hnone int16).
    by rewrite decide_False by apply (Hnone float32).
Qed.

Lemma optimize_dtypes_succeeds (df : gmap string column) :
  casts_succeed df -> is_Some (optimize_dtypes df).
Proof.
  intros Hcasts. unfold ConvertToParquet.optimize_dtypes.
  destruct (convert_all_succeeds float32
              FLOAT32_COLUMNS df (columns_NoDup float32)
              (Hcasts float32)) as [df1 H1].
  rewrite H1.
  assert (forall target col, target <> float32 -> col ∈ columns_of target ->
            df1 !! col = df !! col) as Hsame1.
  { intros target col Hne Hcol.
    rewrite (convert_all_lookup _ _ _ _ col (columns_NoDup float32) H1).
    rewrite decide_False; [reflexivity|].
    intros Hin. apply Hne. symmetry.
    by apply (columns_disjoint float32 target col). }
  destruct (convert_all_succeeds int16
              INT16_COLUMNS df1 (columns_NoDup int16)) as [df2 H2].
  { intros col c Hcol Hc. rewrite (Hsame1 int16) in Hc by done.
    by apply (Hcasts int16 col). }
  rewrite H2.
  apply convert_all_succeeds; [apply (columns_NoDup category)|].
  intros col c Hcol Hc.
  rewrite (convert_all_lookup _ _ _ _ col (columns_NoDup int16) H2) in Hc.
  rewrite decide_False in Hc.
  - rewrite (Hsame1 category) in Hc by done. by apply (Hcasts category col).
  - intros Hin. by pose proof (columns_disjoint int16 category col Hin Hcol).
Qed.


End Optimize.

(** *** Runs with integer stand-ins for the floats *)
Local Open Scope string_scope.


(** The premises of the witness hold at this frame: the run returns, and
    the two converted columns stand for the values they had. *)
Example optimize_sample_frame :
  exists df',
    Sample.optimize (Sample.coordinate_frame [5; 7] [3; -2]) = Some df'
    /\ df' !! "x" = Some (Float32 Z Z [6; 8])
    /\ df' !! "TimeRank" = Some (Int16 Z Z [3; -2])
    /\ df' !! "cell" = Some (Object Z Z [Some "c1"; Some "c2"]).
Proof. eexists. split; [reflexivity|]. repeat split; reflexivity. Qed.


End OptimizeFacts.

(** * Further properties of the code *)

(** ** More on the shuffle/shard partitioner *)
Module ShardMore.

Import Py PyFacts ConvertToParquet ShardFacts More.

Section Shuffle.

Variable rng : Type.
Variable rng_seed : Z -> option rng.
Variable rng_permutation : rng -> nat -> list nat * rng.
Context {row : Type}.

Local Abbreviation shuffle_and_shard :=
  (ConvertToParquet.shuffle_and_shard rng rng_seed rng_permutation).
Local Abbreviation draws_permutations :=
  (ConvertToParquet.draws_permutations rng rng_permutation).

(** Any run that returns shards went through every step. *)
Lemma shuffle_and_shard_returns (df : list row) (prefix : string)
    (num_shards seed : Z) (g : rng) (shards : list (shard row)) :
  (shuffle_and_shard df prefix num_shards seed g).1 = inr shards ->
  exists g1 df_shuffled,
    rng_seed seed = Some g1
    /\ iloc df (rng_permutation g1 (length df)).1 = Some df_shuffled
    /\ num_shards <> 0
    /\ shards = map (make_shard df_shuffled prefix num_shards
                       (len df_shuffled) (len df_shuffled / num_shards))
                  (range num_shards).
Proof.
  unfold ConvertToParquet.shuffle_and_shard.
  destruct (rng_seed seed) as [g1|]; [|discriminate].
  destruct (rng_permutation g1 (length df)) as [indices g2] eqn:Hdraw. simpl.
  destruct (iloc df indices) as [df_shuffled|] eqn:Hiloc; [|discriminate].
  destruct (Z.eqb_spec num_shards 0); [discriminate|].
  simpl. intros [= <-]. exists g1, df_shuffled.
  split; [reflexivity|]. split; [by rewrite Hdraw|]. by split.
Qed.

Lemma shard_name_inj (df_shuffled : list row) (prefix : string)
    (num_shards total_rows rows_per_shard i j : Z) :
  0 <= i -> 0 <= j ->
  shard_name (make_shard df_shuffled prefix num_shards total_rows
                rows_per_shard i)
  = shard_name (make_shard df_shuffled prefix num_shards total_rows
                  rows_per_shard j) ->
  i = j.
Proof.
  intros Hi Hj Heq. simpl in Heq.
  do 2 apply String.app_inj in Heq.
  apply StrFacts.string_app_inv_tail in Heq.
  apply StrFacts.fmt_02d_inj in Heq; lia.
Qed.

(** X1. Whatever the shard count, the shards a run returns carry pairwise
    different file names, so no shard file overwrites another. *)
Theorem shard_names_distinct (df : list row) (prefix : string)
    (num_shards seed : Z) (g : rng) (shards : list (shard row)) :
  (shuffle_and_shard df prefix num_shards seed g).1 = inr shards ->
  NoDup (map shard_name shards).
Proof.
  intros Hrun.
  apply shuffle_and_shard_returns
    in Hrun as (g1 & df_shuffled & _ & _ & _ & ->).
  rewrite map_map. unfold range. rewrite map_map.
  apply NoDup_fmap_2_strong; [|apply NoDup_seq].
  intros i j _ _ Heq. apply shard_name_inj in Heq; lia.
Qed.

(** X2. With a generator that draws permutations, an accepted seed and
    at least one shard, the row ranges of the shards tile [0, R): the first
    starts at 0, each ends where the next starts, the last ends at R, and
    every shard holds exactly [end_row - start_row] rows. *)
Theorem shard_ranges_tile (df : list row) (prefix : string)
    (num_shards seed : Z) (g : rng) :
  draws_permutations -> is_Some (rng_seed seed) -> 1 <= num_shards ->
  exists shards,
    (shuffle_and_shard df prefix num_shards seed g).1 = inr shards
    /\ (forall s, shards !! 0%nat = Some s -> start_row s = 0)
    /\ (forall (k : nat) s s',
          shards !! k = Some s -> shards !! S k = Some s' ->
          end_row s = start_row s')
    /\ (forall s, last shards = Some s -> end_row s = len df)
    /\ (forall s, s ∈ shards ->
          0 <= start_row s <= end_row s
          /\ len (shard_rows s) = end_row s - start_row s).
Proof.
  intros Hperm Hseed Hn.
  destruct (shuffle_and_shard_run rng rng_seed rng_permutation df prefix
              num_shards seed g Hperm Hseed Hn)
    as (df_shuffled & Hrows & Hlen & Hrun).
  eexists. split; [exact Hrun|].
  set (R := len df) in *. set (q := R / num_shards).
  pose proof (len_nonneg df) as HR. fold R in HR.
  assert (0 <= q) as Hq by (apply Z.div_pos; lia).
  assert (num_shards * q <= R) as Hfit by (apply Z.mul_div_le; lia).
  assert (forall (k : nat) s,
            map (make_shard df_shuffled prefix num_shards R q)
              (range num_shards) !! k = Some s ->
            (k < Z.to_nat num_shards)%nat
            /\ s = make_shard df_shuffled prefix num_shards R q (Z.of_nat k))
    as Hlookup.
  { intros k s Hs. rewrite list_lookup_fmap in Hs.
    destruct (range num_shards !! k) as [i|] eqn:Hi; [|discriminate].
    assert (k < Z.to_nat num_shards)%nat as Hk.
    { apply lookup_lt_Some in Hi. by rewrite length_range in Hi. }
    rewrite range_lookup in Hi by assumption.
    injection Hi as <-. injection Hs as <-. by split. }
  split; [|split; [|split]].
  - intros s Hs. apply Hlookup in Hs as [_ ->]. simpl. lia.
  - intros k s s' Hs Hs'.
    apply Hlookup in Hs as [_ ->]. apply Hlookup in Hs' as [Hk ->]. simpl.
    destruct (Z.eqb_spec (Z.of_nat k) (num_shards - 1)); [lia|]. lia.
  - intros s Hs. rewrite last_lookup, length_map, length_range in Hs.
    apply Hlookup in Hs as [_ ->]. simpl.
    destruct (Z.eqb_spec (Z.of_nat (pred (Z.to_nat num_shards)))
                (num_shards - 1)); [reflexivity | lia].
  - intros s (k & Hs)%list_elem_of_lookup.
    apply Hlookup in Hs as [Hk ->]. simpl.
    destruct (Z.eqb_spec (Z.of_nat k) (num_shards - 1)).
    + split; [nia|]. rewrite length_slice_in_range; [reflexivity|nia|lia].
    + split; [nia|]. rewrite length_slice_in_range; [reflexivity|nia|nia].
Qed.

(** X3. Under the same conditions the shards are consecutive pieces of the
    shuffled frame [df.iloc[shuffled_indices]], the input rows taken in the
    order of the permutation drawn after seeding: for every k < N, the rows
    of the first k shards, taken together, are the first k * (R // N) rows
    of that frame. *)
Theorem first_shards_are_a_prefix (df : list row) (prefix : string)
    (num_shards seed : Z) (g g1 : rng) :
  draws_permutations -> rng_seed seed = Some g1 -> 1 <= num_shards ->
  exists df_shuffled shards,
    iloc df (rng_permutation g1 (length df)).1 = Some df_shuffled
    /\ df_shuffled ≡ₚ df
    /\ (shuffle_and_shard df prefix num_shards seed g).1 = inr shards
    /\ forall k : nat,
         Z.of_nat k < num_shards ->
         concat (map shard_rows (take k shards))
         = take (k * Z.to_nat (len df / num_shards)) df_shuffled.
Proof.
  intros Hperm Hseed Hn.
  destruct (iloc_permutation df _ (Hperm g1 (length df)))
    as (df_shuffled & Hiloc & Hrows & Hlength).
  assert (len df_shuffled = len df) as Hlen by (unfold len; lia).
  exists df_shuffled. eexists. split; [assumption|]. split; [assumption|].
  split.
  { unfold ConvertToParquet.shuffle_and_shard. rewrite Hseed.
    destruct (rng_permutation g1 (length df)) as [indices g2].
    simpl in Hiloc. rewrite Hiloc.
    destruct (Z.eqb_spec num_shards 0); [lia|]. simpl. reflexivity. }
  intros k Hk. rewrite Hlen. set (R := len df) in *.
  set (q := R / num_shards).
  pose proof (len_nonneg df) as HR. fold R in HR.
  assert (0 <= q) as Hq by (apply Z.div_pos; lia).
  assert (num_shards * q <= R) as Hfit by (apply Z.mul_div_le; lia).
  rewrite <- !fmap_take. unfold range. rewrite <- fmap_take, take_seq.
  rewrite Nat.min_l by lia. rewrite !map_map.
  rewrite (map_ext_in _
             (fun i => slice df_shuffled (Z.of_nat i * q)
                         ((Z.of_nat i + 1) * q))).
  2:{ intros i Hi%in_seq. unfold make_shard. simpl.
      by replace (_ =? _) with false by (symmetry; apply Z.eqb_neq; lia). }
  rewrite <- (map_map Z.of_nat
                (fun i => slice df_shuffled (i * q) ((i + 1) * q))).
  rewrite (concat_slices df_shuffled (fun i => i * q)).
  - simpl. rewrite slice_in_range by nia.
    rewrite drop_0. f_equal. nia.
  - lia.
  - intros i _. nia.
  - rewrite Hlen. simpl. nia.
Qed.

Lemma iloc_slice (df : list row) (indices : list nat)
    (rows : list row) (start stop : Z) :
  iloc df indices = Some rows ->
  iloc df (slice indices start stop) = Some (slice rows start stop).
Proof.
  intros Hiloc. unfold iloc in *.
  pose proof (length_mapM _ _ _ Hiloc) as Hlen.
  apply mapM_Some in Hiloc. apply mapM_Some.
  unfold slice, len. rewrite Hlen.
  by apply Forall2_take, Forall2_drop.
Qed.

(** X4. The permutation alone decides which rows a shard gets: the rows of
    a returned shard are the input rows at the positions
    [shuffled_indices[start_row:end_row]], in that order. *)
Theorem shard_rows_follow_permutation (df : list row) (prefix : string)
    (num_shards seed : Z) (g g1 : rng) (shards : list (shard row)) :
  rng_seed seed = Some g1 ->
  (shuffle_and_shard df prefix num_shards seed g).1 = inr shards ->
  forall s, s ∈ shards ->
    iloc df (slice (rng_permutation g1 (length df)).1
               (start_row s) (end_row s))
    = Some (shard_rows s).
Proof.
  intros Hseed Hrun s Hs.
  apply shuffle_and_shard_returns
    in Hrun as (g1' & df_shuffled & Hseed' & Hiloc & _ & ->).
  rewrite Hseed in Hseed'. injection Hseed' as <-.
  apply list_elem_of_fmap in Hs as (i & -> & _). simpl.
  by apply iloc_slice.
Qed.

(** X5. A shard count that is not positive never yields a shard: with a
    generator that draws permutations and an accepted seed, a count of 0
    ends in the division by zero of line 123, after the shuffle, and a
    negative count returns normally with no shard written, so that every
    row is dropped. *)
Theorem nonpositive_shard_count (df : list row) (prefix : string)
    (num_shards seed : Z) (g : rng) :
  draws_permutations -> is_Some (rng_seed seed) ->
  (num_shards = 0 ->
   (shuffle_and_shard df prefix num_shards seed g).1 = inl ZeroDivisionError)
  /\ (num_shards < 0 ->
      (shuffle_and_shard df prefix num_shards seed g).1 = inr []).
Proof.
  intros Hperm [g1 Hseed]. unfold ConvertToParquet.shuffle_and_shard.
  rewrite Hseed. specialize (Hperm g1 (length df)).
  destruct (rng_permutation g1 (length df)) as [indices g2]. simpl in Hperm.
  destruct (iloc_permutation df indices Hperm) as (df_shuffled & -> & _).
  split.
  - intros ->. reflexivity.
  - intros Hneg. destruct (Z.eqb_spec num_shards 0); [lia|]. simpl.
    unfold range. by replace (Z.to_nat num_shards) with 0%nat by lia.
Qed.

End Shuffle.

(** *** Runs with the sample generator *)
Lemma shard_names_distinct_witness :
  exists shards,
    sample_run [10; 11; 12; 13; 14]%nat 3 = inr shards
    /\ NoDup (map shard_name shards).
Proof.
  eexists. split; [vm_compute; reflexivity|].
  apply (shard_names_distinct Sample.rng Sample.rng_seed
           Sample.rng_permutation [10; 11; 12; 13; 14]%nat OUTPUT_PREFIX 3
           RANDOM_SEED 0).
  vm_compute. reflexivity.
Defined.

Lemma shard_ranges_tile_witness :
  let df := [10; 11; 12; 13; 14]%nat in
  exists shards,
    sample_run df 3 = inr shards
    /\ (forall s, shards !! 0%nat = Some s -> start_row s = 0)
    /\ (forall (k : nat) s s',
          shards !! k = Some s -> shards !! S k = Some s' ->
          end_row s = start_row s')
    /\ (forall s, last shards = Some s -> end_row s = len df)
    /\ (forall s, s ∈ shards ->
          0 <= start_row s <= end_row s
          /\ len (shard_rows s) = end_row s - start_row s).
Proof.
  intros df.
  apply (shard_ranges_tile Sample.rng Sample.rng_seed Sample.rng_permutation
           df OUTPUT_PREFIX 3 RANDOM_SEED 0).
  - exact sample_draws_permutations.
  - by exists 42.
  - lia.
Defined.

Lemma first_shards_are_a_prefix_witness :
  let df := [10; 11; 12; 13; 14]%nat in
  exists df_shuffled shards,
    iloc df (Sample.rng_permutation 42 (length df)).1 = Some df_shuffled
    /\ df_shuffled ≡ₚ df
    /\ sample_run df 3 = inr shards
    /\ forall k : nat,
         Z.of_nat k < 3 ->
         concat (map shard_rows (take k shards))
         = take (k * Z.to_nat (len df / 3)) df_shuffled.
Proof.
  intros df.
  apply (first_shards_are_a_prefix Sample.rng Sample.rng_seed
           Sample.rng_permutation df OUTPUT_PREFIX 3 RANDOM_SEED 0 42).
  - exact sample_draws_permutations.
  - reflexivity.
  - lia.
Defined.

Lemma shard_rows_follow_permutation_witness :
  let df := [10; 11; 12; 13; 14]%nat in
  exists shards,
    sample_run df 3 = inr shards
    /\ forall s, s ∈ shards ->
         iloc df (slice (Sample.rng_permutation 42 (length df)).1
                    (start_row s) (end_row s))
         = Some (shard_rows s).
Proof.
  intros df. eexists. split; [vm_compute; reflexivity|].
  apply (shard_rows_follow_permutation Sample.rng Sample.rng_seed
           Sample.rng_permutation df OUTPUT_PREFIX 3 RANDOM_SEED 0 42).
  - reflexivity.
  - vm_compute. reflexivity.
Defined.

Lemma nonpositive_shard_count_witness :
  let df := [10; 11; 12; 13; 14]%nat in
  (0 = 0 -> sample_run df 0 = inl ZeroDivisionError)
  /\ (-2 < 0 -> sample_run df (-2) = inr []).
Proof.
  intros df. split.
  - apply (nonpositive_shard_count Sample.rng Sample.rng_seed
             Sample.rng_permutation df OUTPUT_PREFIX 0 RANDOM_SEED 0).
    + exact sample_draws_permutations.
    + by exists 42.
  - apply (nonpositive_shard_count Sample.rng Sample.rng_seed
             Sample.rng_permutation df OUTPUT_PREFIX (-2) RANDOM_SEED 0).
    + exact sample_draws_permutations.
    + by exists 42.
Defined.

End ShardMore.

(** ** More on the type optimizer *)
Module OptimizeMore.

Import ConvertToParquet OptimizeFacts.

Section Optimize.

Variables F64 F32 : Type.
Variable narrow : F64 -> F32.
Variable astype_other : dtype -> column F64 F32 -> option (column F64 F32).

Local Abbreviation column := (ConvertToParquet.column F64 F32).
Local Abbreviation astype := (ConvertToParquet.astype F64 F32 narrow astype_other).
Local Abbreviation convert := (ConvertToParquet.convert F64 F32 narrow astype_other).
Local Abbreviation convert_all :=
  (ConvertToParquet.convert_all F64 F32 narrow astype_other).
Local Abbreviation optimize_dtypes :=
  (ConvertToParquet.optimize_dtypes F64 F32 narrow astype_other).
Local Abbreviation casts_succeed :=
  (ConvertToParquet.casts_succeed F64 F32 narrow astype_other).

(** A loop that ran to its end met no raising cast. *)
Lemma convert_all_returned target cols : forall (df df' : gmap string column),
  NoDup cols ->
  convert_all target df cols = Some df' ->
  forall col c, col ∈ cols -> df !! col = Some c -> is_Some (astype target c).
Proof.
  induction cols as [|col0 cols IH]; intros df df' Hnodup;
    cbn [ConvertToParquet.convert_all].
  - intros _ col c Hcol. by apply elem_of_nil in Hcol.
  - apply NoDup_cons in Hnodup as [Hfresh Hnodup].
    destruct (convert target df col0) as [df1|] eqn:Hstep; [|discriminate].
    intros Hrest col c Hcol Hc.
    apply elem_of_cons in Hcol as [->|Hcol].
    + unfold ConvertToParquet.convert in Hstep. rewrite Hc in Hstep.
      destruct (astype target c); [eauto | discriminate].
    + apply (IH df1 df' Hnodup Hrest col c Hcol).
      rewrite (convert_lookup F64 F32 narrow astype_other target df df1
                 col0 col Hstep).
      rewrite decide_False; [assumption|]. by intros ->.
Qed.

Lemma optimize_dtypes_returned (df df' : gmap string column) :
  optimize_dtypes df = Some df' -> casts_succeed df.
Proof.
  unfold ConvertToParquet.optimize_dtypes.
  destruct (convert_all float32 df FLOAT32_COLUMNS) as [df1|] eqn:H1;
    [|discriminate].
  destruct (convert_all int16 df1 INT16_COLUMNS) as [df2|] eqn:H2;
    [|discriminate].
  intros H3 target col c Hcol Hc.
  assert (forall t, t <> target -> col ∉ columns_of t) as Hother.
  { intros t Hne Hin. apply Hne. by apply (columns_disjoint F64 F32 astype_other t target col). }
  pose proof (convert_all_lookup F64 F32 narrow astype_other _ _ _ _ col
                (columns_NoDup float32) H1) as L1.
  pose proof (convert_all_lookup F64 F32 narrow astype_other _ _ _ _ col
                (columns_NoDup int16) H2) as L2.
  cbn [columns_of] in L1, L2.
  destruct target; cbn [columns_of] in Hcol.
  - by apply (convert_all_returned float32 _ df df1
                (columns_NoDup float32) H1 col c).
  - apply (convert_all_returned int16 _ df1 df2
             (columns_NoDup int16) H2 col c Hcol).
    rewrite L1, decide_False; [assumption | by apply (Hother float32)].
  - apply (convert_all_returned category _ df2 df'
             (columns_NoDup category) H3 col c Hcol).
    rewrite L2, decide_False by (by apply (Hother int16)).
    rewrite L1, decide_False; [assumption | by apply (Hother float32)].
Qed.

(** X6. The type optimizer returns exactly when no cast of a present
    listed column raises: a raising cast is the only way it fails, and
    columns that are absent or unlisted never make it fail. *)
Theorem optimize_dtypes_returns_iff (df : gmap string column) :
  is_Some (optimize_dtypes df) <-> casts_succeed df.
Proof.
  split.
  - intros [df' Hrun]. by apply (optimize_dtypes_returned df df').
  - apply (optimize_dtypes_succeeds F64 F32 narrow astype_other).
Qed.

(** X7. The type optimizer neither adds nor drops a column: the frame it
    returns has exactly the column names of its argument. *)
Theorem optimize_dtypes_keeps_columns (df df' : gmap string column) :
  optimize_dtypes df = Some df' -> dom df' = dom df.
Proof.
  intros Hrun. apply set_eq. intros col. rewrite !elem_of_dom.
  pose proof (optimize_dtypes_returned df df' Hrun) as Hcasts.
  destruct (optimize_dtypes_lookup F64 F32 narrow astype_other df df' col
              Hrun) as [Hcast Hsame].
  assert (forall target, col ∈ columns_of target ->
            is_Some (df' !! col) <-> is_Some (df !! col)) as Hlisted.
  { intros target Hcol. rewrite (Hcast target Hcol).
    destruct (df !! col) as [c|] eqn:Hc; simpl;
      [|split; intros [? ?]; discriminate].
    destruct (Hcasts target col c Hcol Hc) as [c' ->]. split; eauto. }
  destruct (decide (col ∈ FLOAT32_COLUMNS)); [by apply (Hlisted float32)|].
  destruct (decide (col ∈ INT16_COLUMNS)); [by apply (Hlisted int16)|].
  destruct (decide (col ∈ CATEGORICAL_COLUMNS));
    [by apply (Hlisted category)|].
  rewrite Hsame; [reflexivity|]. by intros [].
Qed.

End Optimize.

Lemma optimize_dtypes_returns_iff_witness :
  is_Some (Sample.optimize (Sample.timerank_frame [3]))
  <-> ConvertToParquet.casts_succeed Z Z Sample.narrow Sample.astype_other
        (Sample.timerank_frame [3]).
Proof.
  exact (optimize_dtypes_returns_iff Z Z Sample.narrow Sample.astype_other
           (Sample.timerank_frame [3])).
Defined.

Lemma optimize_dtypes_keeps_columns_witness :
  exists df',
    Sample.optimize (Sample.timerank_frame [40000]) = Some df'
    /\ dom df' = dom (Sample.timerank_frame [40000]).
Proof.
  eexists. split; [reflexivity|].
  apply (optimize_dtypes_keeps_columns Z Z Sample.narrow Sample.astype_other).
  reflexivity.
Defined.

End OptimizeMore.

(** ** More on the splitter's argument parser and line reader *)
Module ReaderMore.

Import Py PyFacts Proc SplitData Invocation More MainFacts.

Lemma split_once_None (c : ascii) (s : string) :
  Str.split_once c s = None <-> occurs c s = false.
Proof.
  induction s as [|a s IH]; simpl; [done|].
  destruct (Ascii.eqb a c); simpl; [done|].
  destruct (Str.split_once c s) as [[k v]|]; [|by rewrite <- IH].
  split; [discriminate|]. intros H. by apply IH in H.
Qed.

Lemma split_once_key_value (c : ascii) (key value : string) :
  occurs c key = false ->
  Str.split_once c (key ++ String c value) = Some (key, value).
Proof.
  induction key as [|a key IH]; simpl.
  - by rewrite Ascii.eqb_refl.
  - destruct (Ascii.eqb a c); simpl; [discriminate|].
    intros H. by rewrite IH.
Qed.

(** The dictionary built from the arguments [rest] on top of [args]. *)
Lemma parse_loop_effect (rest : list string) :
  forall (args : gmap string string) (w : world),
    exists args',
      for_each rest args (fun args arg =>
        match Str.split_once "=" arg with
        | Some (key, value) => ret (<[key := value]> args)
        | None =>
            (print ("Warning: Ignoring argument '" ++ arg
                    ++ "' (expected format: key=value)")%string ;;
             ret args)%prog
        end) w
      = (Done args',
         World (files w)
           (stdout w
            ++ map warning_for
                 (filter (fun arg => occurs "=" arg = false) rest)))
      /\ args'
         = foldl (fun args arg =>
                    match Str.split_once "=" arg with
                    | Some (key, value) => <[key := value]> args
                    | None => args
                    end) args rest.
Proof.
  induction rest as [|arg rest IH]; intros args w.
  - exists args. simpl. rewrite app_nil_r. by destruct w.
  - cbn [for_each foldl].
    destruct (Str.split_once "=" arg) as [[key value]|] eqn:Hsplit.
    + rewrite filter_cons_False
        by (rewrite <- split_once_None, Hsplit; discriminate).
      rewrite run_ret. apply IH.
    + rewrite filter_cons_True by (by apply split_once_None).
      rewrite bind_assoc, run_print, run_ret.
      destruct (IH args (World (files w) (stdout w ++ [warning_for arg])))
        as (args' & Hrun & Hargs).
      exists args'. split; [|assumption].
      unfold warning_for in Hrun at 1. rewrite Hrun. cbn [files stdout map].
      by rewrite <- app_assoc.
Qed.

Lemma arguments_fold (argv : list string) :
  arguments argv
  = foldl (fun args arg =>
             match Str.split_once "=" arg with
             | Some (key, value) => <[key := value]> args
             | None => args
             end) ∅ (drop 1 argv).
Proof.
  unfold arguments, parse_arguments.
  destruct (parse_loop_effect (drop 1 argv) ∅ (World ∅ []))
    as (args' & -> & ->). reflexivity.
Qed.

(** The run of the argument parser in any world. *)
Lemma parse_arguments_exact (argv : list string) (w : world) :
  parse_arguments argv w
  = (Done (arguments argv),
     World (files w) (stdout w ++ warnings_of argv)).
Proof.
  rewrite arguments_fold. unfold parse_arguments, warnings_of.
  destruct (parse_loop_effect (drop 1 argv) ∅ w) as (args' & -> & ->).
  reflexivity.
Qed.

(** X8. The argument parser always returns: it never exits, raises or
    touches a file, and what it prints is one warning for every argument
    after the program name that has no ['='], in command-line order. *)
Theorem parse_arguments_effect (argv : list string) (w : world) :
  parse_arguments argv w
  = (Done (arguments argv),
     World (files w) (stdout w ++ warnings_of argv)).
Proof. apply parse_arguments_exact. Qed.

(** X9. What one more argument at the end of a command line does: a
    [key=value] argument (the key being the text before the first ['='])
    sets that key, replacing any earlier value and leaving the other keys
    alone, and an argument without ['='] changes nothing. *)
Theorem arguments_snoc (argv : list string) (key value arg : string) :
  argv <> [] ->
  (occurs "=" key = false ->
   arguments (argv ++ [(key ++ String "=" value)%string])
   = <[key := value]> (arguments argv))
  /\ (occurs "=" arg = false ->
      arguments (argv ++ [arg]) = arguments argv).
Proof.
  intros Hargv. rewrite !arguments_fold.
  assert (forall x, drop 1 (argv ++ [x]) = drop 1 argv ++ [x]) as Hdrop.
  { intros x. destruct argv; [done | reflexivity]. }
  rewrite !Hdrop, !foldl_snoc. split.
  - intros Hkey. by rewrite split_once_key_value.
  - intros Harg. apply split_once_None in Harg. by rewrite Harg.
Qed.

Lemma arguments_snoc_witness :
  [("split_data.py")%string; ("n_files=3")%string] <> []
  /\ (occurs "=" "n_files" = false ->
      arguments ([("split_data.py")%string; ("n_files=3")%string]
                 ++ [("n_files" ++ String "=" "a=b")%string])
      = <[("n_files")%string := ("a=b")%string]>
          (arguments [("split_data.py")%string; ("n_files=3")%string]))
  /\ (occurs "=" "verbose" = false ->
      arguments ([("split_data.py")%string; ("n_files=3")%string]
                 ++ [("verbose")%string])
      = arguments [("split_data.py")%string; ("n_files=3")%string]).
Proof.
  split; [discriminate|].
  apply (arguments_snoc [("split_data.py")%string; ("n_files=3")%string]
           "n_files" "a=b" "verbose").
  discriminate.
Defined.

(** No line that [splitlines] returns is empty. *)
Lemma splitlines_from_nonempty (k : nat) : forall (t cur : text),
  (length t <= k)%nat -> Forall (fun l => l <> []) (splitlines_from cur t).
Proof.
  induction k as [|k IH]; intros t cur Hlen.
  - destruct t; [|simpl in Hlen; lia].
    destruct cur; simpl; repeat constructor; discriminate.
  - destruct t as [|c t]; simpl.
    { destruct cur; simpl; repeat constructor; discriminate. }
    simpl in Hlen. destruct (is_linebreak c).
    + destruct t as [|c' t'].
      * repeat constructor. by destruct cur.
      * simpl in Hlen.
        destruct ((c =? CR)%N && (c' =? LF)%N); constructor;
          try (by destruct cur); apply IH; simpl; lia.
    + apply IH. lia.
Qed.

Lemma endswith_newline_app (t l : text) :
  l <> [] -> endswith_newline (t ++ l) = endswith_newline l.
Proof.
  intros Hl. unfold endswith_newline. rewrite last_app.
  destruct (last l) eqn:Hlast; [reflexivity|].
  by apply last_None in Hlast.
Qed.

(** *** Lines with Unix or DOS endings split back as they are *)
Lemma splitlines_from_body (body : text) : forall (cur rest : text),
  Forall (fun c => is_linebreak c = false) body ->
  splitlines_from cur (body ++ rest) = splitlines_from (cur ++ body) rest.
Proof.
  induction body as [|c body IH]; intros cur rest Hbody.
  - by rewrite app_nil_r.
  - apply Forall_cons in Hbody as [Hc Hbody]. simpl. rewrite Hc.
    rewrite IH by assumption. by rewrite <- app_assoc.
Qed.

Lemma splitlines_from_complete (cur l rest : text) :
  complete_line l ->
  splitlines_from cur (l ++ rest) = (cur ++ l) :: splitlines_from [] rest.
Proof.
  intros (body & Hbody & [-> | ->]); rewrite <- app_assoc;
    rewrite splitlines_from_body by assumption; rewrite app_assoc.
  - destruct rest; reflexivity.
  - reflexivity.
Qed.

Lemma splitlines_concat_complete (ls : list text) :
  Forall complete_line ls -> splitlines (concat ls) = ls.
Proof.
  unfold splitlines. induction 1 as [|l ls Hl _ IH]; [reflexivity|].
  simpl. rewrite splitlines_from_complete by assumption. by rewrite IH.
Qed.

Lemma complete_line_endswith (l : text) :
  complete_line l -> endswith_newline l = true.
Proof.
  intros (body & _ & [-> | ->]); unfold endswith_newline.
  - by rewrite last_snoc.
  - change (body ++ [CR; LF]) with (body ++ [CR] ++ [LF]).
    by rewrite app_assoc, last_snoc.
Qed.

Lemma ensure_final_newline_complete (ls : list text) :
  Forall complete_line ls -> ensure_final_newline ls = ls.
Proof.
  intros Hls. unfold ensure_final_newline.
  destruct (last ls) as [l|] eqn:Hlast; [|reflexivity].
  assert (complete_line l) as Hl.
  { rewrite Forall_forall in Hls. apply Hls.
    rewrite last_lookup in Hlast. by eapply list_elem_of_lookup_2. }
  by rewrite complete_line_endswith.
Qed.

Section Reader.

Variable gzip_decompress : list Byte.byte -> option (list Byte.byte).
Variable gzipfile_read : list Byte.byte -> list Byte.byte + exn.
Variable utf8_decode : list Byte.byte -> text.

Local Abbreviation read_file_lines :=
  (SplitData.read_file_lines gzip_decompress gzipfile_read utf8_decode).
Local Abbreviation gunzip := (SplitData.gunzip gzip_decompress gzipfile_read).

(** X10. When the file is there and decompresses, the lines the reader
    returns, put end to end, are the decoded text with a final newline
    ensured; none of them is empty; and there are no lines exactly when the
    decoded text is empty. *)
Theorem read_file_lines_joined (w : world) (filepath : string)
    (compressed_data raw : list Byte.byte) :
  files w !! filepath = Some compressed_data ->
  gunzip compressed_data = inl raw ->
  exists lines,
    read_file_lines filepath w = (Done lines, w)
    /\ concat lines = newline_terminated (utf8_decode raw)
    /\ Forall (fun l => l <> []) lines
    /\ (lines = [] <-> utf8_decode raw = []).
Proof.
  intros Hfile Hgz. eexists. split.
  { apply read_file_lines_decoded. unfold Invocation.decoded_lines.
    by rewrite Hfile, Hgz. }
  set (t := utf8_decode raw).
  pose proof (splitlines_from_nonempty (length t) t [] (le_n _)) as Hne.
  pose proof (concat_splitlines t) as Hcat.
  fold (splitlines t) in Hne.
  destruct (splitlines t) as [|l init _] eqn:Hsplit using rev_ind.
  - apply splitlines_nil in Hsplit as ->.
    repeat split; constructor.
  - rewrite ensure_final_newline_snoc.
    apply Forall_app in Hne as [Hinit Hl].
    apply Forall_inv in Hl.
    rewrite concat_app in Hcat. simpl in Hcat. rewrite app_nil_r in Hcat.
    assert (t <> []) as Ht.
    { intros Ht. rewrite Ht in Hcat. by apply app_nil in Hcat as [_ ?]. }
    split; [|split; [|split]].
    + rewrite concat_app. simpl. rewrite app_nil_r.
      unfold newline_terminated. destruct t as [|c t'] eqn:Et; [done|].
      rewrite <- Hcat. rewrite endswith_newline_app by assumption.
      destruct (endswith_newline l); [reflexivity|].
      by rewrite app_assoc.
    + apply Forall_app. split; [assumption|].
      apply Forall_singleton. by destruct (endswith_newline l), l.
    + intros H. by apply app_nil in H as [_ ?].
    + intros H. contradiction.
Qed.

End Reader.

Lemma read_file_lines_joined_witness :
  let content := ("h" ++ NL ++ "a")%string in
  exists lines,
    SplitData.read_file_lines Sample.gzip_decompress Sample.gzipfile_read
      Sample.utf8_decode "in/cells.tsv.gz" (Sample.world content)
    = (Done lines, Sample.world content)
    /\ concat lines
       = newline_terminated (Sample.utf8_decode (Sample.bytes_of content))
    /\ Forall (fun l => l <> []) lines
    /\ (lines = []
        <-> Sample.utf8_decode (Sample.bytes_of content) = []).
Proof.
  intros content.
  apply (read_file_lines_joined Sample.gzip_decompress Sample.gzipfile_read
           Sample.utf8_decode (Sample.world content) "in/cells.tsv.gz"
           (Sample.bytes_of content) (Sample.bytes_of content));
    reflexivity.
Defined.

End ReaderMore.

(** ** More on the splitter's entry point *)
Module MainMore.

Import Py PyFacts Proc SplitData SplitFacts Invocation More MainFacts
  ReaderMore.

Ltac step :=
  first [ rewrite run_ret | rewrite run_print | rewrite run_exit
        | rewrite run_write | rewrite bind_assoc ].

Lemma bind_raised {A B} (m : M A) (k : A -> M B) w e w' :
  m w = (Raised e, w') -> bind m k w = (Raised e, w').
Proof. intros H. unfold bind. by rewrite H. Qed.

Section Main.

Variable int_of_str : string -> Z + string.
Variable gzip_decompress : list Byte.byte -> option (list Byte.byte).
Variable gzipfile_read : list Byte.byte -> list Byte.byte + exn.
Variable utf8_decode : list Byte.byte -> text.
Variable gzip_write : string -> list text -> list Byte.byte.
Variable fmt_mb : Z -> string.
Variable fmt_avg_mb : list Z -> string.
Variable makedirs_refused :
  gmap string (list Byte.byte) -> string -> option exn.
Variable write_failure :
  gmap string (list Byte.byte) -> string -> list Byte.byte
  -> option (exn * option (list Byte.byte)).

Local Abbreviation main :=
  (SplitData.main int_of_str gzip_decompress gzipfile_read utf8_decode
     gzip_write fmt_mb fmt_avg_mb makedirs_refused write_failure).
Local Abbreviation read_file_lines :=
  (SplitData.read_file_lines gzip_decompress gzipfile_read utf8_decode).
Local Abbreviation gunzip := (SplitData.gunzip gzip_decompress gzipfile_read).
Local Abbreviation valid_arguments := (Invocation.valid_arguments int_of_str).
Local Abbreviation decoded_lines :=
  (Invocation.decoded_lines gzip_decompress gzipfile_read utf8_decode).
Local Abbreviation write_part :=
  (SplitData.write_part gzip_write fmt_mb makedirs_refused write_failure).
Local Abbreviation writes_allowed :=
  (Invocation.writes_allowed gzip_write makedirs_refused write_failure).
Local Abbreviation run_allowed :=
  (More.run_allowed gzip_write makedirs_refused write_failure).

Local Abbreviation files_after := (More.files_after gzip_write).
Local Abbreviation part_sizes := (More.part_sizes gzip_write).

(** *** The writing loop *)

(** One round of the loop: either the directory is made, the part written
    and measured, or the round ends with the exception of the call that
    failed, having put at most a partial file in the place of the part. *)
Lemma write_part_outcome (output_path base_filename extension : string)
    (file_sizes : list Z) (i : Z) (part_lines : list text) (w : world) :
  let output_file :=
    part_file_name output_path base_filename extension i in
  let data := gzip_write output_file part_lines in
  (makedirs_error makedirs_refused (files w) (output_dir output_file) = None
   /\ write_failure (files w) output_file data = None
   /\ exists out,
        write_part output_path base_filename extension file_sizes
          (i, part_lines) w
        = (Done (file_sizes ++ [len data]),
           World (<[output_file := data]> (files w)) (stdout w ++ out)))
  \/ (~ (makedirs_error makedirs_refused (files w) (output_dir output_file)
         = None
         /\ write_failure (files w) output_file data = None)
      /\ exists e w',
           write_part output_path base_filename extension file_sizes
             (i, part_lines) w
           = (Raised e, w')
           /\ (files w' = files w
               \/ exists partial,
                    files w' = <[output_file := partial]> (files w))).
Proof.
  intros output_file data. subst output_file data.
  unfold SplitData.write_part.
  unfold bind, print, makedirs, write_file, write_bytes, getsize, ret.
  cbn [files stdout].
  destruct (makedirs_error _ _ _) as [e|] eqn:Hdir.
  { right. split; [by intros [? _]|]. eexists _, _. split; [reflexivity|].
    by left. }
  destruct (write_failure _ _ _) as [[e [partial|]]|] eqn:Hwrite.
  - right. split; [by intros [_ ?]|]. eexists _, _. split; [reflexivity|].
    right. by eexists.
  - right. split; [by intros [_ ?]|]. eexists _, _. split; [reflexivity|].
    by left.
  - left. split; [reflexivity|]. split; [reflexivity|].
    cbn [files stdout]. rewrite lookup_insert_eq. eexists [_; _].
    cbn [files stdout]. by rewrite <- app_assoc.
Qed.

(** The loop measures each file right after writing it: when nothing stops
    the writes, the sizes it collects are those of the data written, in
    order. *)
Lemma write_loop_sizes (output_path base_filename extension : string)
    (entries : list (Z * list text)) :
  forall file_sizes w,
  writes_allowed (part_file_name output_path base_filename extension)
    entries (files w) ->
  exists out,
    for_each entries file_sizes
      (write_part output_path base_filename extension) w
    = (Done
         (file_sizes
          ++ map (fun entry : Z * list text =>
                    len (gzip_write
                           (part_file_name output_path base_filename
                              extension entry.1)
                           entry.2))
               entries),
       World (write_all gzip_write
                (part_file_name output_path base_filename extension)
                entries (files w))
         (stdout w ++ out)).
Proof.
  induction entries as [|[i part_lines] entries IH];
    intros file_sizes w Hallowed.
  - exists []. simpl. unfold ret. rewrite !app_nil_r. by destruct w.
  - destruct Hallowed as (Hdir & Hwrite & Hrest). cbn [fst snd] in *.
    cbn [for_each]. unfold bind at 1.
    destruct (write_part_outcome output_path base_filename extension
                file_sizes i part_lines w)
      as [(_ & _ & out1 & ->)|(Hno & _)]; [|by destruct Hno].
    match goal with
    | |- context [for_each entries ?sizes _ ?w'] =>
        destruct (IH sizes w' Hrest) as (out & Hrun)
    end.
    rewrite Hrun. cbn [files stdout map fst snd]. exists (out1 ++ out).
    f_equal; [f_equal; by rewrite <- app_assoc|].
    f_equal. by rewrite <- !app_assoc.
Qed.

(** The loop stops at the first call that raises. *)
Lemma write_loop_stopped (output_path base_filename extension : string)
    (entries : list (Z * list text)) :
  forall file_sizes w,
  ~ writes_allowed (part_file_name output_path base_filename extension)
      entries (files w) ->
  exists e w',
    for_each entries file_sizes
      (write_part output_path base_filename extension) w
    = (Raised e, w').
Proof.
  induction entries as [|[i part_lines] entries IH];
    intros file_sizes w Hnot.
  - by destruct Hnot.
  - cbn [for_each]. unfold bind at 1.
    destruct (write_part_outcome output_path base_filename extension
                file_sizes i part_lines w)
      as [(Hdir & Hwrite & out1 & ->)|(_ & e & w' & -> & _)];
      [|by eexists _, _].
    apply IH. cbn [files]. intros Hrest. apply Hnot.
    by split; [|split].
Qed.

(** However the loop ends, it only creates or overwrites files, and only
    under the names of the parts; it never ends by [sys.exit]. *)
Lemma write_loop_frame (output_path base_filename extension : string)
    (entries : list (Z * list text)) :
  forall file_sizes w,
  let name := part_file_name output_path base_filename extension in
  let run := for_each entries file_sizes
               (write_part output_path base_filename extension) w in
  (forall path, is_Some (files w !! path) -> is_Some (files run.2 !! path))
  /\ (forall path,
        (forall entry, entry ∈ entries -> path <> name entry.1) ->
        files run.2 !! path = files w !! path)
  /\ (forall c, run.1 <> Exited c).
Proof.
  induction entries as [|[i part_lines] entries IH];
    intros file_sizes w name run.
  - subst run. simpl. by repeat split.
  - subst run. cbn [for_each]. unfold bind at 1 2 3.
    destruct (write_part_outcome output_path base_filename extension
                file_sizes i part_lines w)
      as [(_ & _ & out1 & ->)|(_ & e & w' & -> & Hfiles)].
    + match goal with
      | |- context [for_each entries ?sizes _ ?w'] =>
          destruct (IH sizes w') as (Hkeep & Hother & Hexit)
      end.
      cbn [files] in Hkeep, Hother. fold name in Hkeep, Hother |- *.
      split; [|split; [|exact Hexit]].
      * intros path Hpath. apply Hkeep.
        destruct (decide (name i = path)) as [->|Hne].
        -- rewrite lookup_insert_eq. eauto.
        -- by rewrite lookup_insert_ne.
      * intros path Hpath. rewrite Hother.
        -- rewrite lookup_insert_ne; [reflexivity|].
           intros Heq. apply (Hpath (i, part_lines)); [left | done].
        -- intros entry Hentry. apply Hpath. by right.
    + cbn [fst snd]. split; [|split; [|done]].
      * intros path Hpath. destruct Hfiles as [->|[partial ->]];
          [assumption|]. fold name.
        destruct (decide (name i = path)) as [->|Hne].
        -- rewrite lookup_insert_eq. eauto.
        -- by rewrite lookup_insert_ne.
      * intros path Hpath. destruct Hfiles as [->|[partial ->]];
          [reflexivity|]. fold name.
        rewrite lookup_insert_ne; [reflexivity|].
        intros Heq. apply (Hpath (i, part_lines)); [left | done].
Qed.

Lemma writes_allowed_dec (name : Z -> string)
    (entries : list (Z * list text)) :
  forall fs, writes_allowed name entries fs \/ ~ writes_allowed name entries fs.
Proof.
  induction entries as [|entry entries IH]; intros fs; [by left|].
  cbn [Invocation.writes_allowed].
  destruct (makedirs_error makedirs_refused fs (output_dir (name entry.1)))
    as [e|]; [right; by intros [? _]|].
  destruct (write_failure fs (name entry.1)
              (gzip_write (name entry.1) entry.2))
    as [failure|]; [right; by intros (_ & ? & _)|].
  destruct (IH (<[name entry.1 := gzip_write (name entry.1) entry.2]> fs))
    as [Hrest|Hrest]; [left | right]; [done | by intros (_ & _ & ?)].
Qed.

(** *** The run of [main] *)

(** The run of [main] on an accepted command line, up to the call of the
    reader, and what the rest of [main] does with the lines read: with no
    line it exits, and otherwise it enters the writing loop, after which
    it only prints the summary, the verdict and ["Done!"]. *)
Lemma main_reaches_reader (argv : list string) (w : world)
    (input_file output_path : string) (n : Z) (data : list Byte.byte) :
  valid_arguments argv input_file output_path n ->
  files w !! input_file = Some data ->
  exists rest : list text -> M unit,
    main argv w
    = bind (read_file_lines input_file) rest
        (World (files w)
           (stdout w ++ warnings_of argv
            ++ [("Reading " ++ input_file ++ "...")%string]))
    /\ (forall w',
          rest [] w'
          = (Exited 1,
             World (files w')
               (stdout w' ++ [("Total lines: " ++ Str.fmt_comma 0)%string;
                              "Error: Input file is empty"%string])))
    /\ forall header data_lines w',
         exists (report : list Z -> M unit) (out0 : list string),
           rest (header :: data_lines) w'
           = bind (for_each
                     (enumerate1 (split_lines (header :: data_lines) n)) []
                     (write_part (with_separator output_path)
                        (get_base_filename input_file)
                        (get_file_extension input_file)))
               report (World (files w') (stdout w' ++ out0))
           /\ forall file_sizes w'',
                exists out,
                  report file_sizes w''
                  = (Done tt,
                     World (files w'')
                       (stdout w'' ++ out
                        ++ [(if existsb
                                  (fun size =>
                                     (MAX_SIZE_MB * (1024 * 1024)
                                      <? size)%Z)
                                  file_sizes
                             then NL ++ "Warning: One or more parts exceed "
                                  ++ pretty MAX_SIZE_MB ++ "MB!"
                             else NL ++ "Success: All parts are under "
                                  ++ pretty MAX_SIZE_MB ++ "MB!")%string;
                            "Done!"%string])).
Proof.
  intros [[Hin Hin'] [Hout Hout'] (n_files & Hn & Hn' & Hint & Hpos)] Hdata.
  eexists. split; [|split].
  - unfold SplitData.main.
    erewrite bind_done by apply parse_arguments_exact.
    rewrite Hin, Hout, Hn. rewrite !truthy_Some by assumption.
    cbn [negb when default from_option id]. rewrite !run_ret.
    erewrite bind_done by (by apply parse_n_files_accepts).
    erewrite bind_done by (by eapply path_exists_found).
    cbn [negb when]. rewrite run_ret, run_print.
    cbn [files stdout]. rewrite <- app_assoc. reflexivity.
  - intros w'. cbn beta. rewrite run_print.
    change (len (@nil text) =? 0) with true. cbn [when].
    repeat step. cbn [files stdout]. by rewrite <- app_assoc.
  - intros header data_lines w'. cbn beta. rewrite run_print.
    replace (len (header :: data_lines) =? 0) with false
      by (symmetry; apply Z.eqb_neq; unfold len; simpl; lia).
    cbn [when]. repeat step. cbn [files stdout].
    eexists.
    exists [("Total lines: "
             ++ Str.fmt_comma (len (header :: data_lines)))%string;
            ("Splitting into " ++ pretty n ++ " parts...")%string;
            ("Lines per part: ~"
             ++ Str.fmt_comma
                  (len (slice_from (header :: data_lines) 1) / n)
             ++ " (excluding header)")%string].
    split.
    { rewrite <- !app_assoc. reflexivity. }
    intros file_sizes w''. cbn beta. repeat step. cbn [files stdout].
    exists [(NL ++ "Summary:")%string;
            ("  Total parts: " ++ pretty n)%string;
            ("  Average size: " ++ fmt_avg_mb file_sizes ++ " MB")%string;
            ("  Largest part: " ++ fmt_mb (list_max file_sizes)
             ++ " MB")%string;
            ("  Smallest part: " ++ fmt_mb (list_min file_sizes)
             ++ " MB")%string].
    destruct (existsb _ _); repeat step; cbn [files stdout];
      unfold print; cbn [files stdout];
      rewrite <- !app_assoc; reflexivity.
Qed.

Lemma read_file_lines_bad_gzip (w : world) (input_file : string)
    (data : list Byte.byte) (e : exn) :
  files w !! input_file = Some data -> gunzip data = inr e ->
  read_file_lines input_file w = (Raised e, w).
Proof.
  intros Hdata Hgz. unfold SplitData.read_file_lines, bind, read_bytes.
  by rewrite Hdata, Hgz.
Qed.

(** The run on an accepted command line and a non-empty input, up to the
    writing loop. *)
Lemma main_reaches_loop (argv : list string) (w : world)
    (input_file output_path : string) (n : Z) (lines : list text) :
  valid_arguments argv input_file output_path n ->
  decoded_lines (files w) input_file = Some lines ->
  lines <> [] ->
  exists (report : list Z -> M unit) (out0 : list string),
    main argv w
    = bind (for_each (enumerate1 (split_lines lines n)) []
              (write_part (with_separator output_path)
                 (get_base_filename input_file)
                 (get_file_extension input_file)))
        report (World (files w) (stdout w ++ out0))
    /\ forall file_sizes w'',
         exists out,
           report file_sizes w''
           = (Done tt,
              World (files w'')
                (stdout w'' ++ out
                 ++ [(if existsb
                           (fun size =>
                              (MAX_SIZE_MB * (1024 * 1024) <? size)%Z)
                           file_sizes
                      then NL ++ "Warning: One or more parts exceed "
                           ++ pretty MAX_SIZE_MB ++ "MB!"
                      else NL ++ "Success: All parts are under "
                           ++ pretty MAX_SIZE_MB ++ "MB!")%string;
                     "Done!"%string])).
Proof.
  intros Hvalid Hlines Hne.
  destruct (decoded_lines_exists _ _ _ _ _ _ Hlines) as [data Hdata].
  destruct (main_reaches_reader argv w input_file output_path n data
              Hvalid Hdata) as (rest & -> & _ & Hrest).
  erewrite bind_done by (by apply read_file_lines_decoded).
  destruct lines as [|header data_lines]; [done|].
  destruct (Hrest header data_lines
              (World (files w)
                 (stdout w ++ warnings_of argv
                  ++ [("Reading " ++ input_file ++ "...")%string])))
    as (report & out0 & -> & Hreport).
  exists report,
    (warnings_of argv ++ [("Reading " ++ input_file ++ "...")%string]
     ++ out0).
  split; [|exact Hreport].
  cbn [files stdout]. by rewrite <- !app_assoc.
Qed.

(** The run on an accepted command line and a non-empty input when nothing
    stops the writes. *)
Lemma main_success (argv : list string) (w : world)
    (input_file output_path : string) (n : Z) (lines : list text) :
  valid_arguments argv input_file output_path n ->
  decoded_lines (files w) input_file = Some lines ->
  lines <> [] ->
  run_allowed (files w) input_file output_path n lines ->
  exists out,
    main argv w
    = (Done tt,
       World (files_after (files w) input_file output_path n lines)
         (stdout w ++ out
          ++ [(if existsb
                    (fun size => (MAX_SIZE_MB * (1024 * 1024) <? size)%Z)
                    (part_sizes input_file output_path n lines)
               then NL ++ "Warning: One or more parts exceed "
                    ++ pretty MAX_SIZE_MB ++ "MB!"
               else NL ++ "Success: All parts are under "
                    ++ pretty MAX_SIZE_MB ++ "MB!")%string;
              "Done!"%string])).
Proof.
  intros Hvalid Hlines Hne Hallowed.
  destruct (main_reaches_loop argv w input_file output_path n lines
              Hvalid Hlines Hne) as (report & out0 & -> & Hreport).
  destruct (write_loop_sizes (with_separator output_path)
              (get_base_filename input_file)
              (get_file_extension input_file)
              (enumerate1 (split_lines lines n)) []
              (World (files w) (stdout w ++ out0)) Hallowed)
    as (out1 & Hloop).
  erewrite bind_done by exact Hloop.
  cbn [app files stdout].
  match goal with
  | |- context [report ?sizes ?w''] =>
      destruct (Hreport sizes w'') as (out2 & ->)
  end.
  cbn [files stdout]. exists (out0 ++ out1 ++ out2).
  unfold More.files_after, More.part_sizes. f_equal. f_equal.
  by rewrite <- !app_assoc.
Qed.

(** The run on an accepted command line and a non-empty input when a call
    of [os.makedirs] or a write raises. *)
Lemma main_stopped (argv : list string) (w : world)
    (input_file output_path : string) (n : Z) (lines : list text) :
  valid_arguments argv input_file output_path n ->
  decoded_lines (files w) input_file = Some lines ->
  lines <> [] ->
  ~ run_allowed (files w) input_file output_path n lines ->
  exists e w', main argv w = (Raised e, w').
Proof.
  intros Hvalid Hlines Hne Hnot.
  destruct (main_reaches_loop argv w input_file output_path n lines
              Hvalid Hlines Hne) as (report & out0 & -> & _).
  destruct (write_loop_stopped (with_separator output_path)
              (get_base_filename input_file)
              (get_file_extension input_file)
              (enumerate1 (split_lines lines n)) []
              (World (files w) (stdout w ++ out0)) Hnot)
    as (e & w' & Hloop).
  exists e, w'. by apply bind_raised.
Qed.

(** Whatever becomes of the writes, [main] on an accepted command line and
    a non-empty input returns or raises, and touches no path but those of
    the parts, where it leaves a file. *)
Lemma main_frame (argv : list string) (w : world)
    (input_file output_path : string) (n : Z) (lines : list text) :
  valid_arguments argv input_file output_path n ->
  decoded_lines (files w) input_file = Some lines ->
  lines <> [] ->
  (forall path,
     is_Some (files w !! path) -> is_Some (files (main argv w).2 !! path))
  /\ (forall path,
        (forall i, path <> part_file_name (with_separator output_path)
                             (get_base_filename input_file)
                             (get_file_extension input_file) i) ->
        files (main argv w).2 !! path = files w !! path)
  /\ (forall c, (main argv w).1 <> Exited c).
Proof.
  intros Hvalid Hlines Hne.
  destruct (main_reaches_loop argv w input_file output_path n lines
              Hvalid Hlines Hne) as (report & out0 & -> & Hreport).
  destruct (write_loop_frame (with_separator output_path)
              (get_base_filename input_file)
              (get_file_extension input_file)
              (enumerate1 (split_lines lines n)) []
              (World (files w) (stdout w ++ out0)))
    as (Hkeep & Hother & Hexit).
  cbn [files] in Hkeep, Hother. unfold bind.
  destruct (for_each _ _ _ _) as [[file_sizes|c|e] w'] eqn:Hloop;
    cbn [fst snd] in *.
  - destruct (Hreport file_sizes w') as (out & ->). cbn [fst snd files].
    split; [exact Hkeep|]. split; [|done].
    intros path Hpath. apply Hother. intros entry _. apply Hpath.
  - by destruct (Hexit c).
  - split; [exact Hkeep|]. split; [|done].
    intros path Hpath. apply Hother. intros entry _. apply Hpath.
Qed.

(** Every run of [main] ends in one of three ways: by exit code 1 or with
    an exception of the reader, both with the files as they were, or,
    past the reader, as the writing loop lets it. *)
Lemma main_cases (argv : list string) (w : world) :
  (exists out,
     main argv w = (Exited 1, World (files w) (stdout w ++ out)))
  \/ (exists e out,
        main argv w = (Raised e, World (files w) (stdout w ++ out)))
  \/ (exists input_file output_path n lines,
        valid_arguments argv input_file output_path n
        /\ decoded_lines (files w) input_file = Some lines
        /\ lines <> []).
Proof.
  destruct (truthy (arguments argv !! "input_file"%string)) eqn:Hin.
  2:{ left. eexists. unfold SplitData.main.
      erewrite bind_done by apply parse_arguments_exact.
      rewrite Hin. cbn [negb when]. repeat step. cbn [files stdout].
      by rewrite <- !app_assoc. }
  destruct (truthy (arguments argv !! "output_path"%string)) eqn:Hout.
  2:{ left. eexists. unfold SplitData.main.
      erewrite bind_done by apply parse_arguments_exact.
      rewrite Hin, Hout. cbn [negb when]. repeat step. cbn [files stdout].
      by rewrite <- !app_assoc. }
  destruct (truthy (arguments argv !! "n_files"%string)) eqn:Hn.
  2:{ left. eexists. unfold SplitData.main.
      erewrite bind_done by apply parse_arguments_exact.
      rewrite Hin, Hout, Hn. cbn [negb when]. repeat step.
      cbn [files stdout]. by rewrite <- !app_assoc. }
  pose proof Hin as Hin'. pose proof Hout as Hout'. pose proof Hn as Hn'.
  apply truthy_true in Hin' as (input_file & Hinput & Hinput_ne).
  apply truthy_true in Hout' as (output_path & Houtput & Houtput_ne).
  apply truthy_true in Hn' as (n_files & Hn_files & Hn_ne).
  assert ((exists n, int_of_str n_files = inl n /\ 1 <= n)
          \/ (forall n, int_of_str n_files = inl n -> n < 1)) as [Hok|Hbad].
  { destruct (int_of_str n_files) as [n|e].
    - destruct (Z.lt_ge_cases n 1); [right|left].
      + by intros ? [= <-].
      + eauto.
    - right. intros ? [=]. }
  2:{ left.
      destruct (parse_n_files_rejects int_of_str n_files
                  (World (files w) (stdout w ++ warnings_of argv)) Hbad)
        as (err & _ & Hrun).
      eexists. unfold SplitData.main.
      erewrite bind_done by apply parse_arguments_exact.
      rewrite Hin, Hout, Hn. cbn [negb when]. rewrite !run_ret.
      rewrite Hn_files. cbn [default from_option id].
      erewrite bind_exited by apply Hrun. cbn [files stdout].
      by rewrite <- !app_assoc. }
  destruct Hok as (n & Hint & Hpos).
  assert (valid_arguments argv input_file output_path n) as Hvalid.
  { split; [by split | by split |]. exists n_files. by repeat split. }
  destruct (files w !! input_file) as [data|] eqn:Hdata.
  2:{ left. eexists. unfold SplitData.main.
      erewrite bind_done by apply parse_arguments_exact.
      rewrite Hin, Hout, Hn. cbn [negb when]. rewrite !run_ret.
      rewrite Hinput, Hn_files. cbn [default from_option id].
      erewrite bind_done by (by apply parse_n_files_accepts).
      erewrite bind_done by (by apply path_exists_missing).
      cbn [negb when]. repeat step. cbn [files stdout].
      by rewrite <- !app_assoc. }
  destruct (main_reaches_reader argv w input_file output_path n data
              Hvalid Hdata) as (rest & Hmain & Hempty & _).
  destruct (gunzip data) as [raw|e] eqn:Hgz.
  2:{ right. left. eexists _, _. rewrite Hmain.
      erewrite bind_raised
        by (by apply (read_file_lines_bad_gzip _ input_file data)).
      reflexivity. }
  assert (decoded_lines (files w) input_file
          = Some (ensure_final_newline (splitlines (utf8_decode raw))))
    as Hlines.
  { unfold Invocation.decoded_lines. by rewrite Hdata, Hgz. }
  destruct (ensure_final_newline (splitlines (utf8_decode raw)))
    as [|header data_lines] eqn:Hsplit.
  - left. eexists. rewrite Hmain.
    erewrite bind_done by (by apply read_file_lines_decoded).
    rewrite Hempty. cbn [files stdout]. by rewrite <- !app_assoc.
  - right. right. by exists input_file, output_path, n, (header :: data_lines).
Qed.

(** X11. Every exit of [main] by [sys.exit] has code 1 and comes before
    any write: the files are exactly as they were. *)
Theorem main_exit_writes_nothing (argv : list string) (w : world) (c : Z) :
  (main argv w).1 = Exited c ->
  c = 1 /\ files (main argv w).2 = files w.
Proof.
  intros Hexit.
  destruct (main_cases argv w)
    as [[out Hrun]|[(e & out & Hrun)
                   |(input_file & output_path & n & lines
                     & Hvalid & Hlines & Hne)]].
  - rewrite Hrun in *. simpl in *. by injection Hexit as <-.
  - rewrite Hrun in Hexit. discriminate Hexit.
  - destruct (main_frame argv w input_file output_path n lines
                Hvalid Hlines Hne) as (_ & _ & Hno).
    by destruct (Hno c).
Qed.

(** X12. No run of [main], however it ends, removes a file: every path
    that held a file before the run holds one after it. *)
Theorem main_never_deletes (argv : list string) (w : world) (path : string) :
  is_Some (files w !! path) -> is_Some (files (main argv w).2 !! path).
Proof.
  intros Hpath.
  destruct (main_cases argv w)
    as [[out Hrun]|[(e & out & Hrun)
                   |(input_file & output_path & n & lines
                     & Hvalid & Hlines & Hne)]].
  - by rewrite Hrun.
  - by rewrite Hrun.
  - destruct (main_frame argv w input_file output_path n lines
                Hvalid Hlines Hne) as (Hkeep & _).
    by apply Hkeep.
Qed.

(** X13. On an accepted command line whose input file is rejected by both
    decompression paths, [main] ends with the exception the second one,
    [GzipFile.read], raised, uncaught, right after announcing the read:
    nothing else is printed and no file is touched. *)
Theorem main_bad_gzip (argv : list string) (w : world)
    (input_file output_path : string) (n : Z) (data : list Byte.byte)
    (e : exn) :
  valid_arguments argv input_file output_path n ->
  files w !! input_file = Some data ->
  gzip_decompress data = None ->
  gzipfile_read data = inr e ->
  prints (main argv) w (Raised e)
    (warnings_of argv ++ [("Reading " ++ input_file ++ "...")%string]).
Proof.
  intros Hvalid Hdata Hfirst Hsecond. unfold prints.
  destruct (main_reaches_reader argv w input_file output_path n data
              Hvalid Hdata) as (rest & -> & _).
  erewrite bind_raised; [reflexivity|].
  apply (read_file_lines_bad_gzip _ input_file data); [assumption|].
  unfold SplitData.gunzip. by rewrite Hfirst.
Qed.

(** X17. How a successful run ends. On an accepted command line and a
    non-empty input, when nothing stops the writes, [main] returns
    normally and the last two lines it prints are the verdict and
    ["Done!"]; the verdict is the warning when some part file, as written,
    is larger than 100 MiB (104857600 bytes), and the success message when
    every part file is at most that large. *)
Theorem main_verdict (argv : list string) (w : world)
    (input_file output_path : string) (n : Z) (lines : list text) :
  valid_arguments argv input_file output_path n ->
  decoded_lines (files w) input_file = Some lines ->
  lines <> [] ->
  run_allowed (files w) input_file output_path n lines ->
  exists out line,
    (main argv w).1 = Done tt
    /\ stdout (main argv w).2 = stdout w ++ out ++ [line; "Done!"%string]
    /\ (Exists (fun size => 104857600 < size)
          (part_sizes input_file output_path n lines) ->
        line = (NL ++ "Warning: One or more parts exceed 100MB!")%string)
    /\ (Forall (fun size => size <= 104857600)
          (part_sizes input_file output_path n lines) ->
        line = (NL ++ "Success: All parts are under 100MB!")%string).
Proof.
  intros Hvalid Hlines Hne Hallowed.
  destruct (main_success argv w input_file output_path n lines
              Hvalid Hlines Hne Hallowed) as (out & ->).
  cbn [fst snd files stdout].
  exists out. eexists. split; [reflexivity|]. split; [reflexivity|].
  split.
  - intros (size & Hin & Hsize)%Exists_exists.
    replace (existsb _ _) with true; [reflexivity|].
    symmetry. apply existsb_exists. exists size.
    split; [by apply list_elem_of_In|].
    apply Z.ltb_lt. unfold MAX_SIZE_MB. lia.
  - intros Hall. rewrite Forall_forall in Hall.
    destruct (existsb _ _) eqn:Hsome; [|reflexivity].
    apply existsb_exists in Hsome as (size & Hin%list_elem_of_In & Hsize).
    apply Z.ltb_lt in Hsize. specialize (Hall size Hin).
    unfold MAX_SIZE_MB in Hsize. lia.
Qed.

(** X14. The parts are inputs of the same kind. When every line of the
    input has a Unix or a DOS ending and the codec returns what was written
    (decompressing and decoding a written part gives its text back), then
    after a run on an accepted command line that returned normally the
    reader, applied to the file of a part, returns exactly the lines of
    that part: the header and its data lines. *)
Theorem parts_read_back (argv : list string) (w : world)
    (input_file output_path : string) (n : Z)
    (header : text) (data_lines : list text) :
  valid_arguments argv input_file output_path n ->
  decoded_lines (files w) input_file = Some (header :: data_lines) ->
  Forall complete_line (header :: data_lines) ->
  (main argv w).1 = Done tt ->
  let name := part_file_name (with_separator output_path)
                (get_base_filename input_file)
                (get_file_extension input_file) in
  let parts := split_lines (header :: data_lines) n in
  (forall (i : nat) (part : list text),
     parts !! i = Some part ->
     exists raw,
       gunzip (gzip_write (name (Z.of_nat i + 1)) part) = inl raw
       /\ utf8_decode raw = concat part) ->
  forall (i : nat) (part : list text),
    parts !! i = Some part ->
    read_file_lines (name (Z.of_nat i + 1)) (main argv w).2
    = (Done part, (main argv w).2).
Proof.
  intros Hvalid Hlines Hcomplete Hdone name parts Hcodec i part Hpart.
  assert (run_allowed (files w) input_file output_path n
            (header :: data_lines)) as Hallowed.
  { destruct (writes_allowed_dec name (enumerate1 parts) (files w))
      as [?|Hnot]; [assumption|].
    destruct (main_stopped argv w input_file output_path n
                (header :: data_lines) Hvalid Hlines ltac:(done) Hnot)
      as (e & w' & Hrun).
    rewrite Hrun in Hdone. discriminate Hdone. }
  destruct (main_success argv w input_file output_path n
              (header :: data_lines) Hvalid Hlines ltac:(done) Hallowed)
    as (out & ->).
  cbn [snd]. apply read_file_lines_decoded.
  unfold Invocation.decoded_lines, More.files_after. cbn [files].
  fold name parts.
  rewrite (write_all_lookup gzip_write name
             (enumerate1 parts) (files w) (Z.of_nat i + 1) part).
  2:{ apply enumerate1_names_NoDup. intros a b. apply part_file_name_inj. }
  2:{ apply elem_of_enumerate1. eauto. }
  destruct (Hcodec i part Hpart) as (raw & -> & ->).
  assert (Forall complete_line part) as Hpart_ok.
  { destruct Hvalid as [_ _ (? & _ & _ & _ & Hpos)].
    subst parts. rewrite split_lines_closed_form in Hpart by assumption.
    apply list_lookup_fmap_Some in Hpart as (j & -> & _).
    apply Forall_cons in Hcomplete as [Hheader Hdata].
    apply Forall_cons. split; [assumption|].
    unfold slice. by apply Forall_take, Forall_drop. }
  rewrite splitlines_concat_complete by assumption.
  by rewrite ensure_final_newline_complete.
Qed.

End Main.

(** *** Runs of the sample library *)
Local Open Scope string_scope.

Lemma sample_run_allowed :
  More.run_allowed Sample.gzip_write Sample.makedirs_refused
    Sample.write_failure
    (files (Sample.world ("h" ++ NL ++ "a" ++ NL ++ "b")))
    "in/cells.tsv.gz" "out" 2 [[104; 10]; [97; 10]; [98; 10]]%N.
Proof. repeat split; reflexivity. Defined.

(** A run can stop half way: when the write of the second part is denied,
    the first part is there, the second is not, and the run ends with the
    exception of the denied write. *)
Example main_stops_at_denied_write :
  let w := Sample.world ("h" ++ NL ++ "a" ++ NL ++ "b") in
  let run := SplitData.main Sample.int_of_str Sample.gzip_decompress
               Sample.gzipfile_read Sample.utf8_decode Sample.gzip_write
               Sample.fmt_mb Sample.fmt_avg_mb Sample.makedirs_refused
               second_part_denied (Sample.argv "2") w in
  run.1 = Raised PermissionError
  /\ files run.2 !! "out/cells.part01.tsv.gz"
     = Some (Sample.bytes_of ("h" ++ NL ++ "a" ++ NL))
  /\ files run.2 !! "out/cells.part02.tsv.gz" = None.
Proof. repeat split; reflexivity. Qed.

(** A regular file above the output directory stops the first part. *)
Example main_output_path_under_a_file :
  let w := Sample.world ("h" ++ NL ++ "a" ++ NL ++ "b") in
  let run :=
    Sample.split_data (Sample.argv_to "in/cells.tsv.gz/parts" "2") w in
  run.1 = Raised NotADirectoryError /\ files run.2 = files w.
Proof. split; reflexivity. Qed.

Lemma main_exit_writes_nothing_witness :
  let run := Sample.split_data (Sample.argv "0") (Sample.world "h") in
  1 = 1 /\ files run.2 = files (Sample.world "h").
Proof.
  intros run.
  apply (main_exit_writes_nothing Sample.int_of_str Sample.gzip_decompress
           Sample.gzipfile_read Sample.utf8_decode Sample.gzip_write
           Sample.fmt_mb Sample.fmt_avg_mb
           Sample.makedirs_refused Sample.write_failure (Sample.argv "0")
           (Sample.world "h") 1).
  reflexivity.
Defined.

Lemma main_never_deletes_witness :
  let w := Sample.world ("h" ++ NL ++ "a" ++ NL ++ "b") in
  is_Some (files (Sample.split_data (Sample.argv "2") w).2
             !! "in/cells.tsv.gz").
Proof.
  intros w.
  apply (main_never_deletes Sample.int_of_str Sample.gzip_decompress
           Sample.gzipfile_read Sample.utf8_decode Sample.gzip_write
           Sample.fmt_mb Sample.fmt_avg_mb
           Sample.makedirs_refused Sample.write_failure (Sample.argv "2") w).
  by eexists.
Defined.

Lemma main_bad_gzip_witness :
  prints (split_data_bad_codec (Sample.argv "2")) (Sample.world "h")
    (Raised EOFError)
    (warnings_of (Sample.argv "2") ++ ["Reading in/cells.tsv.gz..."]).
Proof.
  apply (main_bad_gzip Sample.int_of_str (fun _ => None)
           (fun _ => inr EOFError)
           Sample.utf8_decode Sample.gzip_write Sample.fmt_mb
           Sample.fmt_avg_mb Sample.makedirs_refused Sample.write_failure
           (Sample.argv "2") (Sample.world "h")
           "in/cells.tsv.gz" "out" 2 (Sample.bytes_of "h") EOFError).
  - exact sample_valid_arguments.
  - reflexivity.
  - reflexivity.
  - reflexivity.
Defined.

Lemma main_verdict_witness :
  let w := Sample.world ("h" ++ NL ++ "a" ++ NL ++ "b") in
  exists out line,
    (Sample.split_data (Sample.argv "2") w).1 = Done tt
    /\ stdout (Sample.split_data (Sample.argv "2") w).2
       = (stdout w ++ out ++ [line; "Done!"%string])%list
    /\ (Exists (fun size => 104857600 < size)
          (part_sizes Sample.gzip_write "in/cells.tsv.gz" "out" 2
             [[104; 10]; [97; 10]; [98; 10]]%N) ->
        line = (NL ++ "Warning: One or more parts exceed 100MB!")%string)
    /\ (Forall (fun size => size <= 104857600)
          (part_sizes Sample.gzip_write "in/cells.tsv.gz" "out" 2
             [[104; 10]; [97; 10]; [98; 10]]%N) ->
        line = (NL ++ "Success: All parts are under 100MB!")%string).
Proof.
  intros w.
  apply (main_verdict Sample.int_of_str Sample.gzip_decompress
           Sample.gzipfile_read Sample.utf8_decode Sample.gzip_write
           Sample.fmt_mb Sample.fmt_avg_mb
           Sample.makedirs_refused Sample.write_failure (Sample.argv "2") w
           "in/cells.tsv.gz" "out" 2).
  - exact sample_valid_arguments.
  - reflexivity.
  - discriminate.
  - exact sample_run_allowed.
Defined.

Lemma parts_read_back_witness :
  let w := Sample.world ("h" ++ NL ++ "a" ++ NL ++ "b" ++ NL ++ "c") in
  let name := part_file_name (with_separator "out")
                (get_base_filename "in/cells.tsv.gz")
                (get_file_extension "in/cells.tsv.gz") in
  SplitData.read_file_lines Sample.gzip_decompress Sample.gzipfile_read
    Sample.utf8_decode (name 1%Z)
    (Sample.split_data (Sample.argv "2") w).2
  = (Done [[104; 10]; [97; 10]; [98; 10]]%N,
     (Sample.split_data (Sample.argv "2") w).2).
Proof.
  intros w name.
  apply (parts_read_back Sample.int_of_str Sample.gzip_decompress
           Sample.gzipfile_read Sample.utf8_decode Sample.gzip_write
           Sample.fmt_mb Sample.fmt_avg_mb
           Sample.makedirs_refused Sample.write_failure (Sample.argv "2") w
           "in/cells.tsv.gz" "out" 2 [104; 10]%N
           [[97; 10]; [98; 10]; [99; 10]]%N
         ltac:(exact sample_valid_arguments) ltac:(reflexivity)
         ltac:(repeat (apply Forall_cons; split;
                       [eexists [_]; split; [|left; reflexivity];
                        by repeat constructor|]);
               apply Forall_nil_2)
         ltac:(reflexivity)
         ltac:(intros [|[|i]] part Hpart; vm_compute in Hpart;
               [injection Hpart as <- | injection Hpart as <-
               | discriminate Hpart];
               eexists; split; reflexivity)
         0%nat [[104; 10]; [97; 10]; [98; 10]]%N ltac:(reflexivity)).
Defined.

End MainMore.

(** ** File names: [os.path] on strings, and the names of the parts *)
Module NameFacts.

Import Proc SplitData Invocation More Str.
Local Open Scope string_scope.

Lemma string_length_app (s t : string) :
  String.length (s ++ t) = (String.length s + String.length t)%nat.
Proof. induction s as [|a s IH]; simpl; [reflexivity | by rewrite IH]. Qed.

Lemma string_app_empty_r (s : string) : s ++ "" = s.
Proof.
  induction s as [|a s IH]; [reflexivity|].
  change (String a (s ++ "") = String a s). by rewrite IH.
Qed.

Lemma string_app_assoc (s t u : string) : (s ++ t) ++ u = s ++ t ++ u.
Proof.
  induction s as [|a s IH]; [reflexivity|].
  change (String a ((s ++ t) ++ u) = String a (s ++ t ++ u)). by rewrite IH.
Qed.

Lemma occurs_app (c : ascii) (s t : string) :
  occurs c (s ++ t) = occurs c s || occurs c t.
Proof.
  induction s as [|a s IH]; simpl; [reflexivity|].
  by rewrite IH, orb_assoc.
Qed.

Lemma substring_all (s : string) : substring 0 (String.length s) s = s.
Proof. induction s as [|a s IH]; simpl; [reflexivity | by rewrite IH]. Qed.

Lemma substring_skip (pre t : string) (n m : nat) :
  substring (String.length pre + n) m (pre ++ t) = substring n m t.
Proof. induction pre as [|a pre IH]; simpl; [reflexivity | exact IH]. Qed.

Lemma substring_prefix (pre t : string) (m : nat) :
  (m <= String.length pre)%nat ->
  substring 0 m (pre ++ t) = substring 0 m pre.
Proof.
  revert m. induction pre as [|a pre IH]; intros m Hm; simpl in *.
  - replace m with 0%nat by lia. by destruct t.
  - destruct m as [|m]; [reflexivity|]. simpl. rewrite IH by lia. reflexivity.
Qed.

Lemma take_app (pre t : string) : take (String.length pre) (pre ++ t) = pre.
Proof.
  unfold take. rewrite substring_prefix by lia. apply substring_all.
Qed.

Lemma drop_app (pre t : string) : drop (String.length pre) (pre ++ t) = t.
Proof.
  unfold drop. rewrite string_length_app.
  replace (String.length pre + String.length t - String.length pre)%nat
    with (String.length t) by lia.
  rewrite <- (Nat.add_0_r (String.length pre)) at 1.
  rewrite substring_skip. apply substring_all.
Qed.

Lemma drop_0 (s : string) : drop 0 s = s.
Proof. unfold drop. rewrite Nat.sub_0_r. apply substring_all. Qed.

(** [rfind] finds the last occurrence: either the character does not occur
    and the result is [-1], or the string splits at the position found
    into a part before, the character, and a part without it. *)
Lemma rfind_from_spec (c : ascii) (s : string) : forall (i acc : Z),
  (occurs c s = false /\ rfind_from c s i acc = acc)
  \/ (exists pre post,
        s = pre ++ String c post
        /\ occurs c post = false
        /\ rfind_from c s i acc = (i + Z.of_nat (String.length pre))%Z).
Proof.
  induction s as [|a s IH]; intros i acc; simpl.
  - by left.
  - destruct (IH (i + 1)%Z (if Ascii.eqb a c then i else acc))
      as [[Hno Hr]|(pre & post & -> & Hpost & Hr)].
    + destruct (Ascii.eqb_spec a c) as [->|Hne].
      * right. exists "", s. simpl. rewrite Hr.
        repeat split; [assumption | lia].
      * left. simpl. by rewrite Hno, Hr.
    + right. exists (String a pre), post. simpl. rewrite Hr.
      repeat split; [assumption | lia].
Qed.

Lemma rfind_spec (c : ascii) (s : string) :
  (occurs c s = false /\ rfind c s = (-1)%Z)
  \/ (exists pre post,
        s = pre ++ String c post
        /\ occurs c post = false
        /\ rfind c s = Z.of_nat (String.length pre)).
Proof.
  destruct (rfind_from_spec c s 0 (-1))
    as [?|(pre & post & ? & ? & ?)]; [by left|].
  right. exists pre, post. repeat split; assumption.
Qed.

Lemma take_drop (s : string) : forall k, take k s ++ drop k s = s.
Proof.
  induction s as [|a s IH]; intros [|k]; try reflexivity.
  - by rewrite drop_0.
  - change (String a (take k s ++ drop k s) = String a s). by rewrite IH.
Qed.

Lemma take_app_add (pre t : string) (k : nat) :
  take (String.length pre + k) (pre ++ t) = pre ++ take k t.
Proof.
  induction pre as [|a pre IH]; [reflexivity|].
  change (String a (take (String.length pre + k) (pre ++ t))
          = String a (pre ++ take k t)).
  by rewrite IH.
Qed.

Lemma drop_app_add (pre t : string) (k : nat) :
  drop (String.length pre + k) (pre ++ t) = drop k t.
Proof.
  unfold drop. rewrite string_length_app, substring_skip.
  f_equal. lia.
Qed.

(** [rfind] from any starting index, in terms of [rfind] from 0. *)
Lemma rfind_from_shift (c : ascii) (s : string) : forall (i acc : Z),
  rfind_from c s i acc
  = if occurs c s then (i + rfind c s)%Z else acc.
Proof.
  unfold rfind.
  induction s as [|a s IH]; intros i acc; [reflexivity|].
  cbn [rfind_from occurs].
  rewrite (IH (i + 1)%Z), (IH (0 + 1)%Z).
  destruct (occurs c s), (Ascii.eqb a c); cbn [orb]; lia.
Qed.

Lemma rfind_from_app (c : ascii) (s t : string) : forall (i acc : Z),
  rfind_from c (s ++ t) i acc
  = rfind_from c t (i + Z.of_nat (String.length s)) (rfind_from c s i acc).
Proof.
  induction s as [|a s IH]; intros i acc.
  - cbn [String.append String.length rfind_from]. f_equal. lia.
  - change (String a s ++ t) with (String a (s ++ t)).
    cbn [rfind_from String.length]. rewrite IH. f_equal. lia.
Qed.

(** [rfind] of a concatenation. *)
Lemma rfind_app (c : ascii) (s t : string) :
  rfind c (s ++ t)
  = if occurs c t then (Z.of_nat (String.length s) + rfind c t)%Z
    else rfind c s.
Proof.
  unfold rfind at 1. rewrite rfind_from_app, rfind_from_shift.
  destruct (occurs c t); [lia | reflexivity].
Qed.

Lemma rfind_absent (c : ascii) (s : string) :
  occurs c s = false -> rfind c s = (-1)%Z.
Proof.
  intros H. unfold rfind. destruct (rfind_from_spec c s 0 (-1))
    as [[_ ?]|(pre & post & -> & _ & _)]; [assumption|].
  rewrite occurs_app in H. cbn [occurs] in H.
  rewrite Ascii.eqb_refl in H. cbn [orb] in H.
  by rewrite orb_true_r in H.
Qed.

Lemma rfind_bounds (c : ascii) (s : string) :
  (-1 <= rfind c s < Z.of_nat (String.length s))%Z
  /\ (occurs c s = true -> 0 <= rfind c s)%Z.
Proof.
  unfold rfind. destruct (rfind_from_spec c s 0 (-1))
    as [[Hno ->]|(pre & post & -> & _ & ->)].
  - rewrite Hno. split; [lia | discriminate].
  - rewrite string_length_app. cbn [String.length]. lia.
Qed.

Lemma endswith_app (pre suf : string) : endswith (pre ++ suf) suf = true.
Proof.
  unfold endswith. rewrite string_length_app.
  replace (String.length pre + String.length suf - String.length suf)%nat
    with (String.length pre) by lia.
  rewrite drop_app, String.eqb_refl, andb_true_r.
  apply Nat.leb_le. lia.
Qed.

Lemma endswith_inv (s suf : string) :
  endswith s suf = true -> s = drop_end (String.length suf) s ++ suf.
Proof.
  unfold endswith, drop_end. intros [_ H%String.eqb_eq]%andb_prop.
  transitivity (take (String.length s - String.length suf) s
                ++ drop (String.length s - String.length suf) s);
    [symmetry; apply take_drop | by rewrite H].
Qed.

Lemma drop_end_app (pre suf : string) :
  drop_end (String.length suf) (pre ++ suf) = pre.
Proof.
  unfold drop_end. rewrite string_length_app.
  replace (String.length pre + String.length suf - String.length suf)%nat
    with (String.length pre) by lia.
  apply take_app.
Qed.

Lemma basename_app (dir b : string) :
  directory_prefix dir -> occurs "/" b = false -> basename (dir ++ b) = b.
Proof.
  unfold directory_prefix, basename. intros Hdir Hb.
  rewrite rfind_app, Hb, Hdir.
  replace (Z.to_nat (Z.of_nat (String.length dir) - 1 + 1))
    with (String.length dir) by lia.
  apply drop_app.
Qed.

(** Every path is a directory prefix followed by its base name, and the
    base name has no separator. *)
Lemma basename_split (p : string) :
  exists dir,
    p = dir ++ basename p /\ directory_prefix dir
    /\ occurs "/" (basename p) = false.
Proof.
  unfold basename, directory_prefix.
  destruct (rfind_spec "/" p) as [[Hno ->]|(pre & post & -> & Hpost & ->)].
  - exists "". change (Z.to_nat (-1 + 1)) with 0%nat. rewrite drop_0.
    by repeat split.
  - exists (pre ++ "/").
    replace (Z.to_nat (Z.of_nat (String.length pre) + 1))
      with (String.length (pre ++ "/") + 0)%nat
      by (rewrite string_length_app; simpl; lia).
    change (pre ++ String "/" post) with (pre ++ "/" ++ post).
    rewrite <- string_app_assoc, drop_app_add, drop_0.
    repeat split; [|assumption].
    rewrite rfind_app, string_length_app. cbn. lia.
Qed.

Lemma basename_app_tail (s t : string) :
  occurs "/" t = false -> basename (s ++ t) = basename s ++ t.
Proof.
  intros Ht. destruct (basename_split s) as (dir & Hs & Hdir & Hb).
  rewrite Hs at 1. rewrite string_app_assoc.
  apply basename_app; [assumption|].
  by rewrite occurs_app, Hb, Ht.
Qed.

(** [splitext] only cuts: its two results make up the path. *)
Lemma splitext_join (p : string) : (splitext p).1 ++ (splitext p).2 = p.
Proof.
  unfold splitext. case_match; cbn [fst snd].
  - apply take_drop.
  - apply string_app_empty_r.
Qed.

(** [splitext] looks at the base name only. *)
Lemma splitext_path (dir b : string) :
  directory_prefix dir -> occurs "/" b = false ->
  splitext (dir ++ b) = (dir ++ (splitext b).1, (splitext b).2).
Proof.
  unfold directory_prefix, splitext. intros Hdir Hb.
  rewrite !rfind_app, Hb, Hdir, (rfind_absent "/" b Hb).
  replace (Z.to_nat (Z.of_nat (String.length dir) - 1 + 1))
    with (String.length dir) by lia.
  change (Z.to_nat (-1 + 1)) with 0%nat.
  destruct (rfind_bounds "." b) as [Hb_dot Hb_pos].
  destruct (rfind_bounds "." dir) as [Hdir_dot _].
  destruct (occurs "." b) eqn:Hdot.
  - specialize (Hb_pos eq_refl).
    replace (Z.to_nat (Z.of_nat (String.length dir) + rfind "." b))
      with (String.length dir + Z.to_nat (rfind "." b))%nat by lia.
    replace (String.length dir + Z.to_nat (rfind "." b) - String.length dir)%nat
      with (Z.to_nat (rfind "." b)) by lia.
    rewrite <- (Nat.add_0_r (String.length dir)) at 3.
    rewrite substring_skip, Nat.sub_0_r.
    replace (Z.of_nat (String.length dir) - 1
             <? Z.of_nat (String.length dir) + rfind "." b)%Z
      with true by (symmetry; apply Z.ltb_lt; lia).
    replace (-1 <? rfind "." b)%Z
      with true by (symmetry; apply Z.ltb_lt; lia).
    cbn [andb]. case_match; cbn [fst snd]; [|reflexivity].
    by rewrite take_app_add, drop_app_add.
  - rewrite (rfind_absent "." b Hdot).
    replace (Z.of_nat (String.length dir) - 1 <? rfind "." dir)%Z
      with false by (symmetry; apply Z.ltb_ge; lia).
    reflexivity.
Qed.

(** The decimal of a number has no path separator. *)
Lemma pretty_N_go_no_sep (x : N) : forall s,
  occurs "/" (pretty_N_go x s) = occurs "/" s.
Proof.
  induction (N.lt_wf_0 x) as [x _ IH]. intros s.
  destruct (decide (x = 0)%N) as [->|Hx]; [by rewrite pretty_N_go_0|].
  rewrite pretty_N_go_step by lia.
  rewrite IH by (apply N.div_lt; lia).
  cbn [occurs]. unfold pretty_N_char. by repeat case_match.
Qed.

Lemma fmt_02d_no_sep (i : Z) : occurs "/" (fmt_02d i) = false.
Proof.
  assert (forall p, occurs "/" (pretty (N.pos p)) = false) as Hpos.
  { intros p. unfold pretty, pretty_N.
    destruct (decide (N.pos p = 0)%N); [reflexivity|].
    apply pretty_N_go_no_sep. }
  assert (occurs "/" (pretty i) = false) as Hi.
  { destruct i as [|p|p]; [reflexivity | apply Hpos |].
    change (pretty (Z.neg p)) with ("-" ++ pretty (N.pos p)).
    rewrite occurs_app. by rewrite Hpos. }
  unfold fmt_02d. case_match; [|assumption].
  rewrite occurs_app. by rewrite Hi.
Qed.

(** The base name and the extension of [get_base_filename] and
    [get_file_extension] are the two parts of the path's last component. *)
Lemma base_and_extension (filename : string) :
  get_base_filename filename ++ get_file_extension filename
  = basename filename.
Proof.
  unfold get_base_filename, get_file_extension.
  destruct (endswith filename ".gz") eqn:Hgz.
  - apply endswith_inv in Hgz. set (stem := drop_end 3 filename) in *.
    change (String.length ".gz") with 3%nat in Hgz. fold stem in Hgz.
    assert (basename filename = basename stem ++ ".gz") as Hbase
      by (rewrite Hgz at 1; by apply basename_app_tail).
    rewrite Hbase, endswith_app.
    change 3%nat with (String.length ".gz") at 1. rewrite drop_end_app.
    destruct (basename_split stem) as (dir & Hstem & Hdir & Hb).
    rewrite Hstem at 2. rewrite (splitext_path dir _ Hdir Hb). cbn [snd].
    by rewrite <- string_app_assoc, splitext_join.
  - destruct (basename_split filename) as (dir & Hfile & Hdir & Hb).
    destruct (endswith (basename filename) ".gz") eqn:Hgz'.
    { apply endswith_inv in Hgz'. rewrite Hgz' in Hfile.
      rewrite <- string_app_assoc in Hfile.
      rewrite Hfile, endswith_app in Hgz. discriminate. }
    rewrite Hfile at 2. rewrite (splitext_path dir _ Hdir Hb). cbn [snd].
    apply splitext_join.
Qed.

(** No part is given the path of the input, whatever the output path and
    the number of the part. *)
Lemma part_file_name_not_input (output_path filename : string) (i : Z) :
  part_file_name output_path (get_base_filename filename)
    (get_file_extension filename) i
  <> filename.
Proof.
  intros Heq. apply (f_equal basename) in Heq. revert Heq.
  destruct (basename_split filename) as (_ & _ & _ & Hb).
  rewrite <- (base_and_extension filename) in Hb |- *.
  rewrite occurs_app in Hb. apply orb_false_elim in Hb as [Hbase Hext].
  unfold part_file_name. rewrite basename_app_tail.
  2:{ rewrite !occurs_app, Hbase, Hext, fmt_02d_no_sep. reflexivity. }
  intros Heq. apply (f_equal String.length) in Heq.
  rewrite !string_length_app in Heq. simpl in Heq. lia.
Qed.

(** X15. The base name and the extension the splitter takes from a path
    are the two halves of the path's last component: joined they give it
    back, and neither contains a path separator. *)
Theorem base_and_extension_split_basename (filename : string) :
  get_base_filename filename ++ get_file_extension filename
  = basename filename
  /\ occurs "/" (get_base_filename filename) = false
  /\ occurs "/" (get_file_extension filename) = false.
Proof.
  split; [apply base_and_extension|].
  destruct (basename_split filename) as (_ & _ & _ & Hb).
  rewrite <- (base_and_extension filename), occurs_app in Hb.
  by apply orb_false_elim in Hb.
Qed.

Section Main.

Variable int_of_str : string -> Z + string.
Variable gzip_decompress : list Byte.byte -> option (list Byte.byte).
Variable gzipfile_read : list Byte.byte -> list Byte.byte + exn.
Variable utf8_decode : list Byte.byte -> text.
Variable gzip_write : string -> list text -> list Byte.byte.
Variable fmt_mb : Z -> string.
Variable fmt_avg_mb : list Z -> string.
Variable makedirs_refused :
  gmap string (list Byte.byte) -> string -> option exn.
Variable write_failure :
  gmap string (list Byte.byte) -> string -> list Byte.byte
  -> option (exn * option (list Byte.byte)).

Local Abbreviation main :=
  (SplitData.main int_of_str gzip_decompress gzipfile_read utf8_decode
     gzip_write fmt_mb fmt_avg_mb makedirs_refused write_failure).

(** X16. No run of [main] overwrites its input: whatever the output path
    and the number of parts, and however the run ends, no part is written
    to the path given as [input_file], so that path holds after the run
    what it held before (or still no file). *)
Theorem main_keeps_input (argv : list string) (w : world)
    (input_file : string) :
  arguments argv !! "input_file"%string = Some input_file ->
  files (main argv w).2 !! input_file = files w !! input_file.
Proof.
  intros Hinput.
  destruct (MainMore.main_cases int_of_str gzip_decompress gzipfile_read
              utf8_decode gzip_write fmt_mb fmt_avg_mb makedirs_refused
              write_failure argv w)
    as [[out Hrun]|[(e & out & Hrun)
                   |(input_file' & output_path & n & lines
                     & Hvalid & Hlines & Hne)]].
  - by rewrite Hrun.
  - by rewrite Hrun.
  - destruct (MainMore.main_frame int_of_str gzip_decompress gzipfile_read
                utf8_decode gzip_write fmt_mb fmt_avg_mb makedirs_refused
                write_failure argv w input_file' output_path n lines
                Hvalid Hlines Hne) as (_ & Hother & _).
    destruct Hvalid as [[Hinput' _] _ _].
    assert (input_file' = input_file) as -> by congruence.
    apply Hother. intros i Heq. symmetry in Heq.
    by apply part_file_name_not_input in Heq.
Qed.

End Main.

Lemma main_keeps_input_witness :
  let w := Sample.world ("h" ++ NL ++ "a" ++ NL ++ "b") in
  files (Sample.split_data (Sample.argv "2") w).2 !! "in/cells.tsv.gz"
  = files w !! "in/cells.tsv.gz".
Proof.
  intros w.
  apply (main_keeps_input Sample.int_of_str Sample.gzip_decompress
           Sample.gzipfile_read Sample.utf8_decode Sample.gzip_write
           Sample.fmt_mb Sample.fmt_avg_mb Sample.makedirs_refused
           Sample.write_failure (Sample.argv "2") w).
  reflexivity.
Defined.

End NameFacts.
